(** * Resend MCP server: the tool-invocation contract of [src/index.ts]

    The server registers 28 tools.  Each tool is a zod parameter shape and an
    asynchronous handler; the MCP SDK parses the raw arguments of an
    invocation with [z.object(shape)], hands the parsed object to the handler,
    and turns an exception of the handler into a failed tool result.  The
    handler builds a request, performs one call to the Resend SDK (the
    provider gateway) and renders the response.

    The development embeds
    - JavaScript values and the few operators the handlers use,
    - the zod combinators that occur in the shapes, with their parsing,
    - the process-wide configuration read at startup,
    - the 28 shapes and handlers, as programs over a gateway call,
    and then states the properties of the contract as theorems. *)

From Stdlib Require Import String Ascii List ZArith Bool Arith Lia DecimalString.
Import ListNotations.
Open Scope string_scope.
Set Warnings "-register-all".

(** ** JavaScript values *)

(** Numbers carry an integer: no shape of the server has a numeric parameter,
    so a number only ever occurs as a value of the wrong type or inside a
    payload of the provider that is passed through. *)
Inductive value : Type :=
| VUndefined
| VNull
| VBool (b : bool)
| VNum (n : Z)
| VStr (s : string)
| VArr (items : list value)
| VObj (fields : list (string * value)).

(** An object is its list of own properties, in insertion order. *)
Definition object := list (string * value).

Fixpoint lookup (k : string) (fs : object) : option value :=
  match fs with
  | [] => None
  | (k', v) :: rest => if String.eqb k k' then Some v else lookup k rest
  end.

(** [k in obj], for an object given by its properties. *)
Definition has_key (k : string) (fs : object) : bool :=
  match lookup k fs with Some _ => true | None => false end.

(** Property read [v.k] (and [v?.k]): a missing property reads [undefined]. *)
Definition get (v : value) (k : string) : value :=
  match v with
  | VObj fs => match lookup k fs with Some x => x | None => VUndefined end
  | _ => VUndefined
  end.

(** Own-property test on a value. *)
Definition has_field (v : value) (k : string) : bool :=
  match v with
  | VObj fs => has_key k fs
  | _ => false
  end.

(** Assignment [obj.k = v]: replaces the property, or appends it. *)
Fixpoint assign (k : string) (v : value) (fs : object) : object :=
  match fs with
  | [] => [(k, v)]
  | (k', v') :: rest =>
      if String.eqb k k' then (k, v) :: rest else (k', v') :: assign k v rest
  end.

(** ToBoolean. *)
Definition truthy (v : value) : bool :=
  match v with
  | VUndefined | VNull => false
  | VBool b => b
  | VNum n => negb (Z.eqb n 0)
  | VStr s => negb (String.eqb s "")
  | VArr _ | VObj _ => true
  end.

(** [typeof v === "string"]. *)
Definition is_string (v : value) : bool :=
  match v with VStr _ => true | _ => false end.

(** [v === undefined]. *)
Definition is_undefined (v : value) : bool :=
  match v with VUndefined => true | _ => false end.

(** [Array.isArray(v) && v.length > 0]. *)
Definition is_nonempty_array (v : value) : bool :=
  match v with VArr (_ :: _) => true | _ => false end.

(** [a ?? b]. *)
Definition nullish_or (a b : value) : value :=
  match a with
  | VUndefined | VNull => b
  | _ => a
  end.

(** [a || b]. *)
Definition js_or (a b : value) : value :=
  if truthy a then a else b.

(** [cond && (obj.k = v)] in statement form: [if (cond) obj.k = v]. *)
Definition assign_if (cond : bool) (k : string) (v : value) (fs : object) : object :=
  if cond then assign k v fs else fs.

(** The own properties copied by an object spread [{...v}].  The handlers
    spread validated objects only. *)
Definition spread (v : value) : object :=
  match v with VObj fs => fs | _ => [] end.

(** ** What the platform provides

    The regular expression behind zod's [.email()], [JSON.stringify] in its
    compact and its indented form, and the string conversion of a template
    literal are not part of the repository.  The only fact used about them is
    that the empty string is not an email address. *)
Class Platform : Type := {
  is_email : string -> bool;
  is_email_nonempty : is_email "" = false;
  JSON_stringify : value -> string;
  JSON_stringify_indented : value -> string;
  template : value -> string
}.

(** ** zod schemas *)

Inductive string_check : Type :=
| Email                 (* .email() *)
| MinLength (n : nat).  (* .min(n); .nonempty() is .min(1) *)

(** The combinators that occur in [src/index.ts]; [.describe(...)] only
    attaches documentation and is left out. *)
Inductive schema : Type :=
| ZString (checks : list string_check)
| ZBoolean
| ZEnum (options : list string)
| ZArray (item : schema) (max : option nat)
| ZObject (shape : list (string * schema))
| ZUnion (first second : schema)
| ZRecord (item : schema)
| ZOptional (inner : schema).

(** The codes of the issues a failed parse reports; where in the input an
    issue was found is not recorded. *)
Inductive issue_code : Type :=
| invalid_type | invalid_string | too_small | too_big
| invalid_union | invalid_enum_value.

Inductive parsed : Type :=
| Valid (v : value)
| Invalid (issues : list issue_code).

Definition issues_of (r : parsed) : list issue_code :=
  match r with Valid _ => [] | Invalid errs => errs end.

Fixpoint all_valid (rs : list parsed) : option (list value) :=
  match rs with
  | [] => Some []
  | Valid v :: rest =>
      match all_valid rest with Some vs => Some (v :: vs) | None => None end
  | Invalid _ :: _ => None
  end.

(** Parsed properties of an object: a property is set when it was present in
    the input or parsed to something other than [undefined]. *)
Fixpoint all_valid_fields (input : object) (rs : list (string * parsed)) : option object :=
  match rs with
  | [] => Some []
  | (k, Valid v) :: rest =>
      match all_valid_fields input rest with
      | Some fs => Some (if has_key k input || negb (is_undefined v) then (k, v) :: fs else fs)
      | None => None
      end
  | (_, Invalid _) :: _ => None
  end.

Definition merge_array (pre : list issue_code) (rs : list parsed) : parsed :=
  match pre, all_valid rs with
  | [], Some vs => Valid (VArr vs)
  | _, _ => Invalid (pre ++ flat_map issues_of rs)%list
  end.

Definition merge_object (input : object) (rs : list (string * parsed)) : parsed :=
  match all_valid_fields input rs with
  | Some fs => Valid (VObj fs)
  | None => Invalid (flat_map (fun kr => issues_of (snd kr)) rs)
  end.

Section Zod.
Context {PF : Platform}.

Definition check_issue (s : string) (c : string_check) : list issue_code :=
  match c with
  | Email => if is_email s then [] else [invalid_string]
  | MinLength n => if Nat.leb n (String.length s) then [] else [too_small]
  end.

(** [schema.safeParse(v)].  An array checks its length and then every item;
    an object schema is in zod's default mode, where properties that are not
    in the shape are stripped; a union takes the first option that parses and
    reports one [invalid_union] issue when none does. *)
Fixpoint parse (s : schema) (v : value) {struct s} : parsed :=
  match s with
  | ZString checks =>
      match v with
      | VStr str =>
          match flat_map (check_issue str) checks with
          | [] => Valid v
          | errs => Invalid errs
          end
      | _ => Invalid [invalid_type]
      end
  | ZBoolean =>
      match v with
      | VBool _ => Valid v
      | _ => Invalid [invalid_type]
      end
  | ZEnum options =>
      match v with
      | VStr str =>
          if existsb (String.eqb str) options then Valid v
          else Invalid [invalid_enum_value]
      | _ => Invalid [invalid_type]
      end
  | ZArray item max =>
      match v with
      | VArr items =>
          merge_array
            (match max with
             | Some m => if Nat.ltb m (length items) then [too_big] else []
             | None => []
             end)
            (map (parse item) items)
      | _ => Invalid [invalid_type]
      end
  | ZObject shape =>
      match v with
      | VObj fs =>
          merge_object fs
            (map (fun ks => (fst ks, parse (snd ks) (get v (fst ks)))) shape)
      | _ => Invalid [invalid_type]
      end
  | ZUnion first second =>
      match parse first v with
      | Valid x => Valid x
      | Invalid _ =>
          match parse second v with
          | Valid x => Valid x
          | Invalid _ => Invalid [invalid_union]
          end
      end
  | ZRecord item =>
      match v with
      | VObj fs =>
          merge_object fs (map (fun kx => (fst kx, parse item (snd kx))) fs)
      | _ => Invalid [invalid_type]
      end
  | ZOptional inner =>
      match v with
      | VUndefined => Valid VUndefined
      | _ => parse inner v
      end
  end.

End Zod.

(** ** Process-wide configuration

    [senderEmailAddress] and [replierEmailAddresses] are module-level constants
    of [src/index.ts], read once at startup from the command line or the
    environment.  An absent sender is [undefined].  This record is the case
    of a sender that is a string or absent; the sender as an arbitrary value,
    as the command line can also produce it, is treated with
    [handle_send_email_at] below. *)
Record config : Type := Config {
  senderEmailAddress : option string;
  replierEmailAddresses : list string
}.

Definition sender_value (c : config) : value :=
  match senderEmailAddress c with
  | Some s => VStr s
  | None => VUndefined
  end.

Definition repliers_value (c : config) : value :=
  VArr (map VStr (replierEmailAddresses c)).

(** ** The provider gateway

    One constructor per method of the Resend SDK that a handler calls, with
    the arguments of the call. *)
Inductive gateway_call : Type :=
| EmailsSend (request : value)
| BatchSend (requests : value)
| EmailsGet (id : value)
| EmailsUpdate (request : value)
| EmailsCancel (id : value)
| DomainsCreate (request : value)
| DomainsList
| DomainsGet (id : value)
| DomainsUpdate (request : value)
| DomainsRemove (id : value)
| DomainsVerify (id : value)
| ApiKeysCreate (request : value)
| ApiKeysList
| ApiKeysRemove (id : value)
| AudiencesCreate (request : value)
| AudiencesList
| AudiencesGet (id : value)
| AudiencesRemove (id : value)
| ContactsCreate (request : value)
| ContactsList (request : value)
| ContactsGet (request : value)
| ContactsUpdate (request : value)
| ContactsRemove (request : value)
| BroadcastsCreate (request : value)
| BroadcastsList
| BroadcastsGet (id : value)
| BroadcastsSend (id : value) (options : value)
| BroadcastsRemove (id : value).

(** What a call resolves to: [{ data, error }]. *)
Record response : Type := Response { data : value; error : value }.

(** What a handler can throw, and what the dispatcher answers to arguments
    that do not parse. *)
Inductive exn : Type :=
| Error (message : string)
| TypeError
| InvalidParams (issues : list issue_code).

(** A handler is a program that returns, throws, or awaits a gateway call
    and goes on with its response. *)
Inductive prog (A : Type) : Type :=
| Ret (a : A)
| Throw (e : exn)
| Call (c : gateway_call) (k : response -> prog A).

Arguments Ret {A} a.
Arguments Throw {A} e.
Arguments Call {A} c k.

(** Running a program against a gateway: the calls made, in order, and the
    outcome. *)
Fixpoint run {A : Type} (gateway : gateway_call -> response) (p : prog A)
  : list gateway_call * (exn + A) :=
  match p with
  | Ret a => ([], inr a)
  | Throw e => ([], inl e)
  | Call c k =>
      let (calls, outcome) := run gateway (k (gateway c)) in
      (c :: calls, outcome)
  end.

(** The first gateway call of a program, if it makes one. *)
Definition first_call {A : Type} (p : prog A) : option gateway_call :=
  match p with
  | Call c _ => Some c
  | _ => None
  end.

(** A successful tool result: [{ content: [{ type: "text", text }] }]. *)
Record tool_result : Type := TextResult { text : string }.

(** ** The tools *)

Inductive tool : Type :=
| send_email | send_batch_emails | get_email | update_email | cancel_email
| create_domain | list_domains | get_domain | update_domain | delete_domain
| verify_domain
| create_api_key | list_api_keys | delete_api_key
| create_audience | list_audiences | get_audience | delete_audience
| create_contact | list_contacts | get_contact | update_contact | delete_contact
| create_broadcast | list_broadcasts | get_broadcast | send_broadcast
| delete_broadcast.

(** [z.union([z.string().email(), z.array(z.string().email())])] *)
Definition addresses : schema :=
  ZUnion (ZString [Email]) (ZArray (ZString [Email]) None).

Definition tag_schema : schema :=
  ZObject [("name", ZString []); ("value", ZString [])].

(** The entries of the [emails] array of send-batch-emails. *)
Definition batch_entry : schema :=
  ZObject
    [ ("to", addresses);
      ("subject", ZString []);
      ("text", ZString []);
      ("from", ZOptional (ZString [Email]));
      ("html", ZOptional (ZString []));
      ("cc", ZOptional addresses);
      ("bcc", ZOptional addresses);
      ("replyTo", ZOptional addresses);
      ("scheduledAt", ZOptional (ZString []));
      ("tags", ZOptional (ZArray tag_schema None));
      ("attachments",
        ZOptional (ZArray (ZObject [("filename", ZString []); ("content", ZString [])]) None));
      ("headers", ZOptional (ZRecord (ZString []))) ].

(** The parameter shape of send-email depends on the configuration: [from] is
    a parameter only when no sender is configured, [replyTo] only when no
    reply-to address is. *)
Definition send_email_shape (c : config) : list (string * schema) :=
  ([ ("to", addresses);
     ("subject", ZString []);
     ("text", ZString []);
     ("html", ZOptional (ZString []));
     ("cc", ZOptional addresses);
     ("bcc", ZOptional addresses);
     ("scheduledAt", ZOptional (ZString []));
     ("tags", ZOptional (ZArray tag_schema None));
     ("attachments",
       ZOptional
         (ZArray
            (ZObject [("filename", ZString []); ("content", ZString []);
                      ("path", ZOptional (ZString []))])
            None));
     ("headers", ZOptional (ZRecord (ZString []))) ]
   ++ (if negb (truthy (sender_value c))
       then [("from", ZString [Email; MinLength 1])]
       else [])
   ++ (if Nat.eqb (length (replierEmailAddresses c)) 0
       then [("replyTo", ZOptional addresses)]
       else []))%list.

Definition shape (c : config) (t : tool) : list (string * schema) :=
  match t with
  | send_email => send_email_shape c
  | send_batch_emails => [("emails", ZArray batch_entry (Some 100%nat))]
  | get_email => [("emailId", ZString [])]
  | update_email => [("emailId", ZString []); ("scheduledAt", ZString [])]
  | cancel_email => [("emailId", ZString [])]
  | create_domain =>
      [ ("name", ZString []);
        ("region", ZOptional (ZEnum ["us-east-1"; "eu-west-1"; "sa-east-1"])) ]
  | list_domains => []
  | get_domain => [("domainId", ZString [])]
  | update_domain =>
      [ ("domainId", ZString []);
        ("openTracking", ZOptional ZBoolean);
        ("clickTracking", ZOptional ZBoolean);
        ("tls", ZOptional (ZEnum ["enforced"; "opportunistic"])) ]
  | delete_domain => [("domainId", ZString [])]
  | verify_domain => [("domainId", ZString [])]
  | create_api_key =>
      [ ("name", ZString []);
        ("permission", ZOptional (ZEnum ["full_access"; "sending_access"]));
        ("domainId", ZOptional (ZString [])) ]
  | list_api_keys => []
  | delete_api_key => [("apiKeyId", ZString [])]
  | create_audience => [("name", ZString [])]
  | list_audiences => []
  | get_audience => [("audienceId", ZString [])]
  | delete_audience => [("audienceId", ZString [])]
  | create_contact =>
      [ ("audienceId", ZString []);
        ("email", ZString [Email]);
        ("firstName", ZOptional (ZString []));
        ("lastName", ZOptional (ZString []));
        ("unsubscribed", ZOptional ZBoolean) ]
  | list_contacts => [("audienceId", ZString [])]
  | get_contact => [("audienceId", ZString []); ("contactId", ZString [])]
  | update_contact =>
      [ ("audienceId", ZString []);
        ("contactId", ZString []);
        ("firstName", ZOptional (ZString []));
        ("lastName", ZOptional (ZString []));
        ("unsubscribed", ZOptional ZBoolean) ]
  | delete_contact =>
      [ ("audienceId", ZString []);
        ("contactId", ZOptional (ZString []));
        ("email", ZOptional (ZString [Email])) ]
  | create_broadcast =>
      [ ("name", ZString []);
        ("audienceId", ZString []);
        ("from", ZString [Email]);
        ("subject", ZString []);
        ("replyTo", ZOptional addresses);
        ("previewText", ZOptional (ZString []));
        ("text", ZOptional (ZString []));
        ("html", ZOptional (ZString [])) ]
  | list_broadcasts => []
  | get_broadcast => [("broadcastId", ZString [])]
  | send_broadcast =>
      [("broadcastId", ZString []); ("scheduledAt", ZOptional (ZString []))]
  | delete_broadcast => [("broadcastId", ZString [])]
  end.

(** ** The handlers

    Each handler destructures the parsed arguments, builds the request, awaits
    one gateway call and renders the response.  The diagnostic lines written
    with [console.error] are left out. *)

Definition nl : string := String (ascii_of_nat 10) "".

(** [e.id] for every element of an array: a TypeError on [null] and
    [undefined] elements. *)
Fixpoint ids_of (created : list value) : option (list value) :=
  match created with
  | [] => Some []
  | (VUndefined | VNull) :: _ => None
  | e :: rest =>
      match ids_of rest with
      | Some ids => Some (get e "id" :: ids)
      | None => None
      end
  end.

Section Handlers.
Context {PF : Platform}.
Variable c : config.

(** [Array.prototype.join]: [null] and [undefined] elements print as the
    empty string. *)
Fixpoint js_join (sep : string) (xs : list value) : string :=
  match xs with
  | [] => ""
  | x :: rest =>
      let shown := match x with VUndefined | VNull => "" | _ => template x end in
      match rest with
      | [] => shown
      | _ :: _ => shown ++ sep ++ js_join sep rest
      end
  end.

(** *** send-email *)

(** [const fromEmailAddress = from ?? senderEmailAddress] *)
Definition fromEmailAddress (args : value) : value :=
  nullish_or (get args "from") (sender_value c).

(** [const replyToEmailAddresses = replyTo ?? replierEmailAddresses] *)
Definition replyToEmailAddresses (args : value) : value :=
  nullish_or (get args "replyTo") (repliers_value c).

(** The object [emailRequest] at the point where it is sent. *)
Definition emailRequest (args : value) : object :=
  let r := replyToEmailAddresses args in
  let req0 :=
    [ ("to", get args "to");
      ("subject", get args "subject");
      ("text", get args "text");
      ("from", fromEmailAddress args) ] in
  let req1 :=
    assign_if (truthy r && (is_string r || is_nonempty_array r)) "replyTo" r req0 in
  let req2 := assign_if (truthy (get args "html")) "html" (get args "html") req1 in
  let req3 :=
    assign_if (truthy (get args "scheduledAt")) "scheduledAt" (get args "scheduledAt") req2 in
  let req4 := assign_if (truthy (get args "cc")) "cc" (get args "cc") req3 in
  let req5 := assign_if (truthy (get args "bcc")) "bcc" (get args "bcc") req4 in
  let req6 := assign_if (truthy (get args "tags")) "tags" (get args "tags") req5 in
  let req7 :=
    assign_if (truthy (get args "attachments")) "attachments" (get args "attachments") req6 in
  assign_if (truthy (get args "headers")) "headers" (get args "headers") req7.

Definition handle_send_email (args : value) : prog tool_result :=
  if negb (is_string (fromEmailAddress args))
  then Throw (Error "from argument must be provided.")
  else
    Call (EmailsSend (VObj (emailRequest args))) (fun response =>
      if truthy (error response)
      then Throw (Error ("Email failed to send: " ++ JSON_stringify (error response)))
      else Ret (TextResult
                  ("Email sent successfully! ID: " ++ template (get (data response) "id")))).

(** *** send-batch-emails *)

(** [emails.map(email => ({ ...email, from: email.from || senderEmailAddress }))] *)
Definition batchEmails (emails : list value) : list value :=
  map (fun email =>
         VObj (assign "from" (js_or (get email "from") (sender_value c)) (spread email)))
      emails.

Definition handle_send_batch_emails (args : value) : prog tool_result :=
  match get args "emails" with
  | VArr emails =>
      Call (BatchSend (VArr (batchEmails emails))) (fun response =>
        if truthy (error response)
        then Throw (Error ("Batch email failed to send: " ++ JSON_stringify (error response)))
        else
          match data response with
          | VUndefined | VNull =>
              Ret (TextResult ("Batch emails sent successfully! IDs: " ++ template VUndefined))
          | d =>
              match get d "data" with
              | VArr created =>
                  match ids_of created with
                  | Some ids =>
                      Ret (TextResult
                             ("Batch emails sent successfully! IDs: " ++ js_join ", " ids))
                  | None => Throw TypeError
                  end
              | _ => Throw TypeError
              end
          end)
  | _ => Throw TypeError
  end.

(** *** get-email, update-email, cancel-email *)

Definition handle_get_email (args : value) : prog tool_result :=
  Call (EmailsGet (get args "emailId")) (fun response =>
    if truthy (error response)
    then Throw (Error ("Failed to get email: " ++ JSON_stringify (error response)))
    else Ret (TextResult (JSON_stringify_indented (data response)))).

Definition handle_update_email (args : value) : prog tool_result :=
  Call (EmailsUpdate
          (VObj [("id", get args "emailId"); ("scheduledAt", get args "scheduledAt")]))
    (fun response =>
      if truthy (error response)
      then Throw (Error ("Failed to update email: " ++ JSON_stringify (error response)))
      else Ret (TextResult
                  ("Email updated successfully! ID: " ++ template (get (data response) "id")))).

Definition handle_cancel_email (args : value) : prog tool_result :=
  Call (EmailsCancel (get args "emailId")) (fun response =>
    if truthy (error response)
    then Throw (Error ("Failed to cancel email: " ++ JSON_stringify (error response)))
    else Ret (TextResult
                ("Email cancelled successfully! ID: " ++ template (get (data response) "id")))).

(** *** Domains *)

Definition handle_create_domain (args : value) : prog tool_result :=
  Call (DomainsCreate (VObj [("name", get args "name"); ("region", get args "region")]))
    (fun response =>
      if truthy (error response)
      then Throw (Error ("Failed to create domain: " ++ JSON_stringify (error response)))
      else Ret (TextResult
                  ("Domain created successfully! ID: " ++ template (get (data response) "id")
                   ++ nl ++ nl ++ "DNS Records to configure:" ++ nl
                   ++ JSON_stringify_indented (get (data response) "records")))).

Definition handle_list_domains (args : value) : prog tool_result :=
  Call DomainsList (fun response =>
    if truthy (error response)
    then Throw (Error ("Failed to list domains: " ++ JSON_stringify (error response)))
    else Ret (TextResult (JSON_stringify_indented (get (data response) "data")))).

Definition handle_get_domain (args : value) : prog tool_result :=
  Call (DomainsGet (get args "domainId")) (fun response =>
    if truthy (error response)
    then Throw (Error ("Failed to get domain: " ++ JSON_stringify (error response)))
    else Ret (TextResult (JSON_stringify_indented (data response)))).

Definition handle_update_domain (args : value) : prog tool_result :=
  let updateData0 := [("id", get args "domainId")] in
  let updateData1 :=
    assign_if (negb (is_undefined (get args "openTracking")))
      "openTracking" (get args "openTracking") updateData0 in
  let updateData2 :=
    assign_if (negb (is_undefined (get args "clickTracking")))
      "clickTracking" (get args "clickTracking") updateData1 in
  let updateData :=
    assign_if (negb (is_undefined (get args "tls"))) "tls" (get args "tls") updateData2 in
  Call (DomainsUpdate (VObj updateData)) (fun response =>
    if truthy (error response)
    then Throw (Error ("Failed to update domain: " ++ JSON_stringify (error response)))
    else Ret (TextResult
                ("Domain updated successfully! ID: " ++ template (get (data response) "id")))).

Definition handle_delete_domain (args : value) : prog tool_result :=
  Call (DomainsRemove (get args "domainId")) (fun response =>
    if truthy (error response)
    then Throw (Error ("Failed to delete domain: " ++ JSON_stringify (error response)))
    else Ret (TextResult
                ("Domain deleted successfully! ID: " ++ template (get (data response) "id")))).

Definition handle_verify_domain (args : value) : prog tool_result :=
  Call (DomainsVerify (get args "domainId")) (fun response =>
    if truthy (error response)
    then Throw (Error ("Failed to verify domain: " ++ JSON_stringify (error response)))
    else Ret (TextResult
                ("Domain verification triggered! ID: " ++ template (get (data response) "id")))).

(** *** API keys *)

Definition handle_create_api_key (args : value) : prog tool_result :=
  Call (ApiKeysCreate
          (VObj [ ("name", get args "name");
                  ("permission", js_or (get args "permission") (VStr "sending_access"));
                  ("domain_id", get args "domainId") ]))
    (fun response =>
      if truthy (error response)
      then Throw (Error ("Failed to create API key: " ++ JSON_stringify (error response)))
      else Ret (TextResult
                  ("API key created successfully! ID: " ++ template (get (data response) "id")
                   ++ nl ++ "Token: " ++ template (get (data response) "token")
                   ++ nl ++ nl
                   ++ "IMPORTANT: Save this token securely, it won't be shown again!"))).

Definition handle_list_api_keys (args : value) : prog tool_result :=
  Call ApiKeysList (fun response =>
    if truthy (error response)
    then Throw (Error ("Failed to list API keys: " ++ JSON_stringify (error response)))
    else Ret (TextResult (JSON_stringify_indented (data response)))).

Definition handle_delete_api_key (args : value) : prog tool_result :=
  Call (ApiKeysRemove (get args "apiKeyId")) (fun response =>
    if truthy (error response)
    then Throw (Error ("Failed to delete API key: " ++ JSON_stringify (error response)))
    else Ret (TextResult "API key deleted successfully!")).

(** *** Audiences *)

Definition handle_create_audience (args : value) : prog tool_result :=
  Call (AudiencesCreate (VObj [("name", get args "name")])) (fun response =>
    if truthy (error response)
    then Throw (Error ("Failed to create audience: " ++ JSON_stringify (error response)))
    else Ret (TextResult
                ("Audience created successfully! ID: " ++ template (get (data response) "id")))).

Definition handle_list_audiences (args : value) : prog tool_result :=
  Call AudiencesList (fun response =>
    if truthy (error response)
    then Throw (Error ("Failed to list audiences: " ++ JSON_stringify (error response)))
    else Ret (TextResult (JSON_stringify_indented (get (data response) "data")))).

Definition handle_get_audience (args : value) : prog tool_result :=
  Call (AudiencesGet (get args "audienceId")) (fun response =>
    if truthy (error response)
    then Throw (Error ("Failed to get audience: " ++ JSON_stringify (error response)))
    else Ret (TextResult (JSON_stringify_indented (data response)))).

Definition handle_delete_audience (args : value) : prog tool_result :=
  Call (AudiencesRemove (get args "audienceId")) (fun response =>
    if truthy (error response)
    then Throw (Error ("Failed to delete audience: " ++ JSON_stringify (error response)))
    else Ret (TextResult
                ("Audience deleted successfully! ID: " ++ template (get (data response) "id")))).

(** *** Contacts *)

Definition handle_create_contact (args : value) : prog tool_result :=
  Call (ContactsCreate
          (VObj [ ("audienceId", get args "audienceId");
                  ("email", get args "email");
                  ("firstName", get args "firstName");
                  ("lastName", get args "lastName");
                  ("unsubscribed", get args "unsubscribed") ]))
    (fun response =>
      if truthy (error response)
      then Throw (Error ("Failed to create contact: " ++ JSON_stringify (error response)))
      else Ret (TextResult
                  ("Contact created successfully! ID: " ++ template (get (data response) "id")))).

Definition handle_list_contacts (args : value) : prog tool_result :=
  Call (ContactsList (VObj [("audienceId", get args "audienceId")])) (fun response =>
    if truthy (error response)
    then Throw (Error ("Failed to list contacts: " ++ JSON_stringify (error response)))
    else Ret (TextResult (JSON_stringify_indented (get (data response) "data")))).

Definition handle_get_contact (args : value) : prog tool_result :=
  Call (ContactsGet
          (VObj [("audienceId", get args "audienceId"); ("id", get args "contactId")]))
    (fun response =>
      if truthy (error response)
      then Throw (Error ("Failed to get contact: " ++ JSON_stringify (error response)))
      else Ret (TextResult (JSON_stringify_indented (data response)))).

Definition handle_update_contact (args : value) : prog tool_result :=
  let updateData0 : object := [] in
  let updateData1 :=
    assign_if (negb (is_undefined (get args "firstName")))
      "first_name" (get args "firstName") updateData0 in
  let updateData2 :=
    assign_if (negb (is_undefined (get args "lastName")))
      "last_name" (get args "lastName") updateData1 in
  let updateData :=
    assign_if (negb (is_undefined (get args "unsubscribed")))
      "unsubscribed" (get args "unsubscribed") updateData2 in
  Call (ContactsUpdate
          (VObj ([("audienceId", get args "audienceId"); ("id", get args "contactId")]
                 ++ updateData)%list))
    (fun response =>
      if truthy (error response)
      then Throw (Error ("Failed to update contact: " ++ JSON_stringify (error response)))
      else Ret (TextResult
                  ("Contact updated successfully! ID: " ++ template (get (data response) "id")))).

Definition handle_delete_contact (args : value) : prog tool_result :=
  if negb (truthy (get args "contactId")) && negb (truthy (get args "email"))
  then Throw (Error "Either contactId or email must be provided")
  else
    Call (ContactsRemove
            (VObj [ ("audienceId", get args "audienceId");
                    ("id", get args "contactId");
                    ("email", get args "email") ]))
      (fun response =>
        if truthy (error response)
        then Throw (Error ("Failed to delete contact: " ++ JSON_stringify (error response)))
        else Ret (TextResult "Contact deleted successfully!")).

(** *** Broadcasts *)

Definition handle_create_broadcast (args : value) : prog tool_result :=
  if negb (truthy (get args "text")) && negb (truthy (get args "html"))
  then Throw (Error "Either text or html content must be provided")
  else
    Call (BroadcastsCreate
            (VObj [ ("name", get args "name");
                    ("audienceId", get args "audienceId");
                    ("from", get args "from");
                    ("subject", get args "subject");
                    ("replyTo", get args "replyTo");
                    ("previewText", get args "previewText");
                    ("text", get args "text");
                    ("html", get args "html") ]))
      (fun response =>
        if truthy (error response)
        then Throw (Error ("Failed to create broadcast: " ++ JSON_stringify (error response)))
        else Ret (TextResult
                    ("Broadcast created successfully! ID: "
                     ++ template (get (data response) "id")))).

Definition handle_list_broadcasts (args : value) : prog tool_result :=
  Call BroadcastsList (fun response =>
    if truthy (error response)
    then Throw (Error ("Failed to list broadcasts: " ++ JSON_stringify (error response)))
    else Ret (TextResult (JSON_stringify_indented (get (data response) "data")))).

Definition handle_get_broadcast (args : value) : prog tool_result :=
  Call (BroadcastsGet (get args "broadcastId")) (fun response =>
    if truthy (error response)
    then Throw (Error ("Failed to get broadcast: " ++ JSON_stringify (error response)))
    else Ret (TextResult (JSON_stringify_indented (data response)))).

(** [scheduledAt ? { scheduledAt } : undefined] *)
Definition broadcast_options (args : value) : value :=
  if truthy (get args "scheduledAt")
  then VObj [("scheduledAt", get args "scheduledAt")]
  else VUndefined.

Definition handle_send_broadcast (args : value) : prog tool_result :=
  Call (BroadcastsSend (get args "broadcastId") (broadcast_options args)) (fun response =>
    if truthy (error response)
    then Throw (Error ("Failed to send broadcast: " ++ JSON_stringify (error response)))
    else Ret (TextResult
                ("Broadcast sent successfully! ID: " ++ template (get (data response) "id")))).

Definition handle_delete_broadcast (args : value) : prog tool_result :=
  Call (BroadcastsRemove (get args "broadcastId")) (fun response =>
    if truthy (error response)
    then Throw (Error ("Failed to delete broadcast: " ++ JSON_stringify (error response)))
    else Ret (TextResult
                ("Broadcast deleted successfully! ID: " ++ template (get (data response) "id")))).

(** *** Dispatch *)

Definition handler (t : tool) : value -> prog tool_result :=
  match t with
  | send_email => handle_send_email
  | send_batch_emails => handle_send_batch_emails
  | get_email => handle_get_email
  | update_email => handle_update_email
  | cancel_email => handle_cancel_email
  | create_domain => handle_create_domain
  | list_domains => handle_list_domains
  | get_domain => handle_get_domain
  | update_domain => handle_update_domain
  | delete_domain => handle_delete_domain
  | verify_domain => handle_verify_domain
  | create_api_key => handle_create_api_key
  | list_api_keys => handle_list_api_keys
  | delete_api_key => handle_delete_api_key
  | create_audience => handle_create_audience
  | list_audiences => handle_list_audiences
  | get_audience => handle_get_audience
  | delete_audience => handle_delete_audience
  | create_contact => handle_create_contact
  | list_contacts => handle_list_contacts
  | get_contact => handle_get_contact
  | update_contact => handle_update_contact
  | delete_contact => handle_delete_contact
  | create_broadcast => handle_create_broadcast
  | list_broadcasts => handle_list_broadcasts
  | get_broadcast => handle_get_broadcast
  | send_broadcast => handle_send_broadcast
  | delete_broadcast => handle_delete_broadcast
  end.

(** The arguments of an invocation as the handler of tool [t] receives them:
    the raw arguments parsed with [z.object(shape)]. *)
Definition validate (t : tool) (raw : value) : parsed :=
  parse (ZObject (shape c t)) raw.

(** One invocation of a tool: arguments that do not parse are answered
    without running the handler. *)
Definition call_tool (t : tool) (raw : value) : prog tool_result :=
  match validate t raw with
  | Valid args => handler t args
  | Invalid issues => Throw (InvalidParams issues)
  end.

End Handlers.

(** ** A concrete platform for the worked examples

    The examples below run the tools on explicit invocations.  They use a
    small email test (one at-sign with text on both sides) and a serializer
    that prints strings between quotes without escapes; both agree with the
    real ones on the inputs of the examples. *)

Definition example_is_email (s : string) : bool :=
  match index 0 "@" s with
  | Some n => Nat.ltb 0 n && Nat.ltb (S n) (String.length s)
  | None => false
  end.

Definition quote : string := String (ascii_of_nat 34) "".

Definition quoted (s : string) : string := quote ++ s ++ quote.

Definition show_Z (n : Z) : string :=
  NilZero.string_of_int (Z.to_int n).

Fixpoint sep_by (sep : string) (xs : list string) : string :=
  match xs with
  | [] => ""
  | [x] => x
  | x :: rest => x ++ sep ++ sep_by sep rest
  end.

Fixpoint example_stringify (v : value) : string :=
  match v with
  | VUndefined => "undefined"
  | VNull => "null"
  | VBool true => "true"
  | VBool false => "false"
  | VNum n => show_Z n
  | VStr s => quoted s
  | VArr items => "[" ++ sep_by "," (map example_stringify items) ++ "]"
  | VObj fields =>
      "{" ++ sep_by ","
               (map (fun kv => quoted (fst kv) ++ ":" ++ example_stringify (snd kv)) fields)
      ++ "}"
  end.

Definition example_template (v : value) : string :=
  match v with
  | VStr s => s
  | _ => example_stringify v
  end.

#[local] Instance example_platform : Platform := {|
  is_email := example_is_email;
  is_email_nonempty := eq_refl;
  JSON_stringify := example_stringify;
  JSON_stringify_indented := example_stringify;
  template := example_template
|}.

(** Configurations and invocations of the examples. *)

Definition no_defaults : config := Config None [].

Definition sender_configured : config := Config (Some "d@x.com") [].

Definition both_configured : config := Config (Some "d@x.com") ["r@x.com"].

(** [{ to: "a@x.com", subject: "Hi", text: "Body" }] *)
Definition plain_email : object :=
  [("to", VStr "a@x.com"); ("subject", VStr "Hi"); ("text", VStr "Body")].

Definition email_with_from : value :=
  VObj (plain_email ++ [("from", VStr "s@x.com")])%list.

Definition email_with_empty_cc : value :=
  VObj (plain_email ++ [("cc", VArr []); ("from", VStr "s@x.com")])%list.

Definition email_with_empty_html : value :=
  VObj (plain_email ++ [("html", VStr ""); ("from", VStr "s@x.com")])%list.

Definition email_with_reply_to : value :=
  VObj (plain_email ++ [("from", VStr "s@x.com"); ("replyTo", VStr "q@x.com")])%list.

(** A tag whose name has a character outside ASCII (code 233) and whose
    value has 257 characters. *)
Definition bad_tag_name : string := String (ascii_of_nat 233) "".

Definition bad_tag_value : string := string_of_list_ascii (repeat "a"%char 257).

Definition bad_tag : value :=
  VObj [("name", VStr bad_tag_name); ("value", VStr bad_tag_value)].

Definition email_with_bad_tag : value :=
  VObj (plain_email ++ [("tags", VArr [bad_tag]); ("from", VStr "s@x.com")])%list.

Definition batch_of (entries : list value) : value :=
  VObj [("emails", VArr entries)].

Definition delete_contact_without_identifier : value :=
  VObj [("audienceId", VStr "aud_1")].

Definition broadcast_now : value :=
  VObj [("broadcastId", VStr "bc_1")].

(** A gateway that answers every call with the identifier [em_1]. *)
Definition accepting_gateway (_ : gateway_call) : response :=
  Response (VObj [("id", VStr "em_1")]) VNull.

(** A gateway that answers every call with the same structured error. *)
Definition failing_gateway (_ : gateway_call) : response :=
  Response VNull
    (VObj [("name", VStr "validation_error"); ("message", VStr "Invalid from")]).

(** ** Vocabulary of the statements *)

(** What a tag must satisfy according to the changelog of release 2.0.1:
    ASCII characters only, at most 256 of them. *)
Definition within_tag_limits (s : string) : bool :=
  forallb (fun a => Nat.ltb (nat_of_ascii a) 128) (list_ascii_of_string s)
  && Nat.leb (String.length s) 256.

(** A reply-to value that names no address. *)
Definition no_addresses (v : value) : bool :=
  match v with
  | VUndefined | VArr [] => true
  | _ => false
  end.

(** The text in front of the serialized payload when the gateway call of a
    tool fails. *)
Definition failure_prefix (t : tool) : string :=
  match t with
  | send_email => "Email failed to send: "
  | send_batch_emails => "Batch email failed to send: "
  | get_email => "Failed to get email: "
  | update_email => "Failed to update email: "
  | cancel_email => "Failed to cancel email: "
  | create_domain => "Failed to create domain: "
  | list_domains => "Failed to list domains: "
  | get_domain => "Failed to get domain: "
  | update_domain => "Failed to update domain: "
  | delete_domain => "Failed to delete domain: "
  | verify_domain => "Failed to verify domain: "
  | create_api_key => "Failed to create API key: "
  | list_api_keys => "Failed to list API keys: "
  | delete_api_key => "Failed to delete API key: "
  | create_audience => "Failed to create audience: "
  | list_audiences => "Failed to list audiences: "
  | get_audience => "Failed to get audience: "
  | delete_audience => "Failed to delete audience: "
  | create_contact => "Failed to create contact: "
  | list_contacts => "Failed to list contacts: "
  | get_contact => "Failed to get contact: "
  | update_contact => "Failed to update contact: "
  | delete_contact => "Failed to delete contact: "
  | create_broadcast => "Failed to create broadcast: "
  | list_broadcasts => "Failed to list broadcasts: "
  | get_broadcast => "Failed to get broadcast: "
  | send_broadcast => "Failed to send broadcast: "
  | delete_broadcast => "Failed to delete broadcast: "
  end.

Section Statements.
Context {PF : Platform}.

(** A program surfaces the failure of its gateway call: whenever the response
    carries an error, it throws the prefix followed by the serialized error
    and calls nothing else. *)
Definition surfaces_failure (prefix : string) (p : prog tool_result) : Prop :=
  match p with
  | Call _ k =>
      forall r, truthy (error r) = true ->
                k r = Throw (Error (prefix ++ JSON_stringify (error r)))
  | _ => True
  end.

(** The sender of send-email is the [from] of the invocation whenever the
    invocation has one. *)
Definition supplied_from_is_sender (c : config) (raw : value) : Prop :=
  forall s req,
    get raw "from" = VStr s ->
    first_call (call_tool c send_email raw) = Some (EmailsSend req) ->
    get req "from" = VStr s.

(** A batch without entries is refused by validation. *)
Definition empty_batch_rejected (c : config) : Prop :=
  exists issues, validate c send_batch_emails (batch_of []) = Invalid issues.

(** Parameter [k] of send-email, supplied as the empty string or the empty
    list, is left out of the request. *)
Definition empty_value_omitted (c : config) (raw : value) (k : string) : Prop :=
  forall req,
    get raw k = VStr "" \/ get raw k = VArr [] ->
    first_call (call_tool c send_email raw) = Some (EmailsSend req) ->
    has_field req k = false.

End Statements.

(** ** Startup

    What [src/index.ts] computes before it registers the tools, from the
    command line as minimist parsed it ([argv], an object) and from the
    environment, whose values are strings. *)

Definition environment := list (string * string).

(** [process.env.NAME]. *)
Fixpoint getenv (name : string) (env : environment) : value :=
  match env with
  | [] => VUndefined
  | (n, s) :: rest => if String.eqb name n then VStr s else getenv name rest
  end.

(** [s.split(sep)] for a separator of one character. *)
Fixpoint split_on (sep : ascii) (s : string) : list string :=
  match s with
  | "" => [""]
  | String a rest =>
      if Ascii.eqb a sep then "" :: split_on sep rest
      else
        match split_on sep rest with
        | piece :: pieces => String a piece :: pieces
        | [] => [String a ""]
        end
  end.

Definition comma : ascii := ascii_of_nat 44.

(** [argv.key || process.env.RESEND_API_KEY] *)
Definition resolve_apiKey (argv : value) (env : environment) : value :=
  js_or (get argv "key") (getenv "RESEND_API_KEY" env).

(** [argv.sender || process.env.SENDER_EMAIL_ADDRESS] *)
Definition resolve_senderEmailAddress (argv : value) (env : environment) : value :=
  js_or (get argv "sender") (getenv "SENDER_EMAIL_ADDRESS" env).

(** The value of [replierEmailAddresses] after the three-way test on
    [argv["reply-to"]]. *)
Definition resolve_replierEmailAddresses (argv : value) (env : environment)
  : list value :=
  match get argv "reply-to" with
  | VArr items => items
  | VStr s => [VStr s]
  | _ =>
      match getenv "REPLY_TO_EMAIL_ADDRESSES" env with
      | VStr s => if truthy (VStr s) then map VStr (split_on comma s) else []
      | _ => []
      end
  end.

Inductive startup_outcome : Type :=
| Exit (status : Z)
| Serving (key sender : value) (repliers : list value).

(** The process exits with status 1 when no API key was resolved, and goes on
    to serve the tools otherwise. *)
Definition startup (argv : value) (env : environment) : startup_outcome :=
  if negb (truthy (resolve_apiKey argv env)) then Exit 1
  else Serving (resolve_apiKey argv env)
               (resolve_senderEmailAddress argv env)
               (resolve_replierEmailAddresses argv env).

Fixpoint strings_of (vs : list value) : option (list string) :=
  match vs with
  | [] => Some []
  | VStr s :: rest =>
      match strings_of rest with Some ss => Some (s :: ss) | None => None end
  | _ :: _ => None
  end.

(** The configuration of a serving process whose sender is a string or
    absent and whose reply-to addresses are strings. *)
Definition config_of (sender : value) (repliers : list value) : option config :=
  match sender, strings_of repliers with
  | VStr s, Some rs => Some (Config (Some s) rs)
  | VUndefined, Some rs => Some (Config None rs)
  | _, _ => None
  end.

(** ** send-email for any value of the sender

    [senderEmailAddress] is [argv.sender || process.env.SENDER_EMAIL_ADDRESS]:
    the environment gives a string, but minimist gives [true] for a flag
    without value, a number for a numeric one and an array for a repeated
    one.  The definitions below are the shape and the handler of send-email
    again, with the sender and the reply-to addresses as startup resolves
    them; for a sender that is a string or absent they are the ones above. *)

Definition send_email_shape_at (sender : value) (repliers : list value)
  : list (string * schema) :=
  ([ ("to", addresses);
     ("subject", ZString []);
     ("text", ZString []);
     ("html", ZOptional (ZString []));
     ("cc", ZOptional addresses);
     ("bcc", ZOptional addresses);
     ("scheduledAt", ZOptional (ZString []));
     ("tags", ZOptional (ZArray tag_schema None));
     ("attachments",
       ZOptional
         (ZArray
            (ZObject [("filename", ZString []); ("content", ZString []);
                      ("path", ZOptional (ZString []))])
            None));
     ("headers", ZOptional (ZRecord (ZString []))) ]
   ++ (if negb (truthy sender)
       then [("from", ZString [Email; MinLength 1])]
       else [])
   ++ (if Nat.eqb (length repliers) 0
       then [("replyTo", ZOptional addresses)]
       else []))%list.

Section SendEmailAt.
Context {PF : Platform}.
Variable sender : value.
Variable repliers : list value.

(** [const fromEmailAddress = from ?? senderEmailAddress] *)
Definition fromEmailAddress_at (args : value) : value :=
  nullish_or (get args "from") sender.

(** [const replyToEmailAddresses = replyTo ?? replierEmailAddresses] *)
Definition replyToEmailAddresses_at (args : value) : value :=
  nullish_or (get args "replyTo") (VArr repliers).

Definition emailRequest_at (args : value) : object :=
  let r := replyToEmailAddresses_at args in
  let req0 :=
    [ ("to", get args "to");
      ("subject", get args "subject");
      ("text", get args "text");
      ("from", fromEmailAddress_at args) ] in
  let req1 :=
    assign_if (truthy r && (is_string r || is_nonempty_array r)) "replyTo" r req0 in
  let req2 := assign_if (truthy (get args "html")) "html" (get args "html") req1 in
  let req3 :=
    assign_if (truthy (get args "scheduledAt")) "scheduledAt" (get args "scheduledAt") req2 in
  let req4 := assign_if (truthy (get args "cc")) "cc" (get args "cc") req3 in
  let req5 := assign_if (truthy (get args "bcc")) "bcc" (get args "bcc") req4 in
  let req6 := assign_if (truthy (get args "tags")) "tags" (get args "tags") req5 in
  let req7 :=
    assign_if (truthy (get args "attachments")) "attachments" (get args "attachments") req6 in
  assign_if (truthy (get args "headers")) "headers" (get args "headers") req7.

Definition handle_send_email_at (args : value) : prog tool_result :=
  if negb (is_string (fromEmailAddress_at args))
  then Throw (Error "from argument must be provided.")
  else
    Call (EmailsSend (VObj (emailRequest_at args))) (fun response =>
      if truthy (error response)
      then Throw (Error ("Email failed to send: " ++ JSON_stringify (error response)))
      else Ret (TextResult
                  ("Email sent successfully! ID: " ++ template (get (data response) "id")))).

Definition validate_send_email_at (raw : value) : parsed :=
  parse (ZObject (send_email_shape_at sender repliers)) raw.

Definition call_send_email_at (raw : value) : prog tool_result :=
  match validate_send_email_at raw with
  | Valid args => handle_send_email_at args
  | Invalid issues => Throw (InvalidParams issues)
  end.


End SendEmailAt.


(** ** Further vocabulary *)

(** A schema that parses [undefined]: an optional one, or a union with such
    an option.  A parameter whose schema does not is required. *)
Fixpoint accepts_undefined (s : schema) : bool :=
  match s with
  | ZOptional _ => true
  | ZUnion first second => accepts_undefined first || accepts_undefined second
  | _ => false
  end.

(** A schema whose parse returns its input unchanged: no object inside
    whose unknown properties would be stripped. *)
Fixpoint preserving (s : schema) : bool :=
  match s with
  | ZString _ | ZBoolean | ZEnum _ => true
  | ZArray item _ => preserving item
  | ZUnion first second => preserving first && preserving second
  | ZOptional inner => preserving inner
  | ZObject _ | ZRecord _ => false
  end.

(** A handler that awaits at most one gateway call. *)
Definition calls_once (p : prog tool_result) : Prop :=
  match p with
  | Call _ k => forall r, first_call (k r) = None
  | _ => True
  end.


Definition is_nullish (v : value) : bool :=
  match v with VUndefined | VNull => true | _ => false end.

Section RecipientVocabulary.
Context {PF : Platform}.

Definition is_email_string (v : value) : bool :=
  match v with VStr s => is_email s | _ => false end.

(** One email address, or a list of email addresses. *)
Definition addresses_ok (v : value) : bool :=
  match v with
  | VStr s => is_email s
  | VArr items => forallb is_email_string items
  | _ => false
  end.

End RecipientVocabulary.

(** Further invocations of the examples. *)

Definition contact_update : value :=
  VObj [ ("audienceId", VStr "aud_1"); ("contactId", VStr "ct_1");
         ("firstName", VStr ""); ("unsubscribed", VBool false) ].

Definition domain_update : value :=
  VObj [("domainId", VStr "dom_1"); ("openTracking", VBool false)].

Definition api_key_request : value := VObj [("name", VStr "ci")].

Definition broadcast_draft : value :=
  VObj [ ("name", VStr "News"); ("audienceId", VStr "aud_1");
         ("from", VStr "s@x.com"); ("subject", VStr "Hi"); ("text", VStr "Body") ].

Definition broadcast_without_content : value :=
  VObj [ ("name", VStr "News"); ("audienceId", VStr "aud_1");
         ("from", VStr "s@x.com"); ("subject", VStr "Hi"); ("text", VStr "") ].

Definition delete_contact_by_email : value :=
  VObj [("audienceId", VStr "aud_1"); ("email", VStr "a@x.com")].

Definition batch_entry_with_html : value :=
  VObj (plain_email ++ [("html", VStr "")])%list.

(** A gateway that answers a batch with two created identifiers. *)
Definition batch_gateway (_ : gateway_call) : response :=
  Response (VObj [("data", VArr [VObj [("id", VStr "em_1")]; VObj [("id", VStr "em_2")]])])
           VNull.

(** A gateway whose answer has neither an error nor a list of identifiers. *)
Definition empty_payload_gateway (_ : gateway_call) : response :=
  Response (VObj []) VNull.

Definition argv_with_key : value := VObj [("key", VStr "re_123")].

Definition env_with_repliers : environment :=
  [("REPLY_TO_EMAIL_ADDRESSES", "r@x.com,q@x.com")].

(** * Properties *)

(** ** Objects *)

Lemma lookup_assign (k k' : string) (v : value) (fs : object) :
  lookup k' (assign k v fs) = if String.eqb k' k then Some v else lookup k' fs.
Proof.
  induction fs as [|[k0 v0] rest IH]; simpl.
  - reflexivity.
  - destruct (String.eqb k k0) eqn:E; simpl.
    + apply String.eqb_eq in E. subst k0. destruct (String.eqb k' k); reflexivity.
    + rewrite IH. destruct (String.eqb k' k0) eqn:E0; [|reflexivity].
      apply String.eqb_eq in E0. subst k0.
      rewrite String.eqb_sym, E. reflexivity.
Qed.

Lemma lookup_assign_if (b : bool) (k k' : string) (v : value) (fs : object) :
  lookup k' (assign_if b k v fs)
  = if b && String.eqb k' k then Some v else lookup k' fs.
Proof.
  unfold assign_if. destruct b; simpl; [apply lookup_assign | reflexivity].
Qed.

(** ** Parsing *)

Section ParseFacts.
Context {PF : Platform}.

Lemma all_valid_fields_dom (input : object) (rs : list (string * parsed))
    (out : object) (k : string) :
  all_valid_fields input rs = Some out ->
  ~ In k (map fst rs) ->
  lookup k out = None.
Proof.
  revert out. induction rs as [|[k0 r0] rest IH]; simpl; intros out H Hk.
  - injection H as <-. reflexivity.
  - destruct r0 as [v0|]; [|discriminate].
    destruct (all_valid_fields input rest) as [fs|] eqn:E; [|discriminate].
    injection H as <-.
    assert (Hfs : lookup k fs = None) by (apply IH; tauto).
    destruct (has_key k0 input || negb (is_undefined v0)); simpl; [|exact Hfs].
    destruct (String.eqb k k0) eqn:Ek; [|exact Hfs].
    apply String.eqb_eq in Ek. subst k0. tauto.
Qed.

Lemma all_valid_fields_get (input : object) (rs : list (string * parsed))
    (out : object) (k : string) (r : parsed) :
  all_valid_fields input rs = Some out ->
  NoDup (map fst rs) ->
  In (k, r) rs ->
  r = Valid (get (VObj out) k).
Proof.
  revert out. induction rs as [|[k0 r0] rest IH]; simpl; intros out H Hnd Hin.
  - contradiction.
  - destruct r0 as [v0|]; [|discriminate].
    destruct (all_valid_fields input rest) as [fs|] eqn:E; [|discriminate].
    injection H as <-.
    inversion Hnd as [|? ? Hk0 Hrest]; subst.
    destruct Hin as [Heq | Hin].
    + injection Heq as <- <-.
      pose proof (all_valid_fields_dom _ _ _ _ E Hk0) as Hnone.
      destruct (has_key k0 input || negb (is_undefined v0)) eqn:Hset; simpl.
      * rewrite String.eqb_refl. reflexivity.
      * rewrite Hnone. apply orb_false_iff in Hset. destruct Hset as [_ Hu].
        destruct v0; simpl in Hu; try discriminate. reflexivity.
    + assert (Hne : String.eqb k k0 = false).
      { apply String.eqb_neq. intros ->. apply Hk0.
        change k0 with (fst (k0, r)). apply in_map. exact Hin. }
      specialize (IH fs eq_refl Hrest Hin).
      destruct (has_key k0 input || negb (is_undefined v0)); simpl in *.
      * rewrite Hne. exact IH.
      * exact IH.
Qed.

Lemma parse_object_inv (sh : list (string * schema)) (raw args : value) :
  parse (ZObject sh) raw = Valid args ->
  exists fs out,
    raw = VObj fs /\ args = VObj out /\
    all_valid_fields fs (map (fun ks => (fst ks, parse (snd ks) (get raw (fst ks)))) sh)
    = Some out.
Proof.
  simpl. destruct raw; try discriminate.
  unfold merge_object.
  destruct (all_valid_fields _ _) as [out|] eqn:E; [|discriminate].
  intros H. injection H as <-. eauto.
Qed.

(** A property of the shape is parsed from the property of the same name. *)
Lemma parse_object_field (sh : list (string * schema)) (raw args : value)
    (k : string) (s : schema) :
  parse (ZObject sh) raw = Valid args ->
  NoDup (map fst sh) ->
  In (k, s) sh ->
  parse s (get raw k) = Valid (get args k).
Proof.
  intros H Hnd Hin.
  destruct (parse_object_inv _ _ _ H) as (fs & out & -> & -> & E).
  apply (all_valid_fields_get _ _ _ k _ E).
  - rewrite map_map. simpl. exact Hnd.
  - apply (in_map (fun ks => (fst ks, parse (snd ks) (get (VObj fs) (fst ks)))) _ _ Hin).
Qed.

(** A property that is not in the shape is stripped. *)
Lemma parse_object_strip (sh : list (string * schema)) (raw args : value) (k : string) :
  parse (ZObject sh) raw = Valid args ->
  ~ In k (map fst sh) ->
  get args k = VUndefined.
Proof.
  intros H Hk.
  destruct (parse_object_inv _ _ _ H) as (fs & out & -> & -> & E).
  simpl. rewrite (all_valid_fields_dom _ _ _ k E); [reflexivity|].
  rewrite map_map. simpl. exact Hk.
Qed.

Lemma parse_string_inv (cs : list string_check) (v v' : value) :
  parse (ZString cs) v = Valid v' ->
  v' = v /\ exists s, v = VStr s /\ flat_map (check_issue s) cs = [].
Proof.
  simpl. destruct v; try discriminate.
  destruct (flat_map (check_issue s) cs) eqn:E; [|discriminate].
  intros H. injection H as <-. eauto.
Qed.

Lemma parse_email_string_inv (v v' : value) :
  parse (ZString [Email]) v = Valid v' ->
  v' = v /\ exists s, v = VStr s /\ is_email s = true.
Proof.
  intros H. destruct (parse_string_inv _ _ _ H) as (-> & s & -> & E).
  split; [reflexivity|]. exists s. split; [reflexivity|].
  simpl in E. destruct (is_email s); [reflexivity | discriminate].
Qed.

(** An email address is a non-empty string, hence truthy. *)
Lemma email_truthy (s : string) : is_email s = true -> truthy (VStr s) = true.
Proof.
  intros H. simpl. destruct (String.eqb_spec s ""); [|reflexivity].
  subst s. rewrite is_email_nonempty in H. discriminate.
Qed.

Lemma parse_optional_omitted (s : schema) (v' : value) :
  parse (ZOptional s) VUndefined = Valid v' -> v' = VUndefined.
Proof. simpl. intros H. injection H as <-. reflexivity. Qed.

Lemma parse_optional_supplied (s : schema) (v : value) :
  v <> VUndefined -> parse (ZOptional s) v = parse s v.
Proof. destruct v; simpl; congruence. Qed.

Lemma all_valid_Forall2 (f : value -> parsed) (items out : list value) :
  all_valid (map f items) = Some out ->
  Forall2 (fun x y => f x = Valid y) items out.
Proof.
  revert out. induction items as [|x rest IH]; simpl; intros out H.
  - injection H as <-. constructor.
  - destruct (f x) as [y|] eqn:E; [|discriminate].
    destruct (all_valid (map f rest)) as [ys|]; [|discriminate].
    injection H as <-. constructor; auto.
Qed.

Lemma Forall2_all_valid (f : value -> parsed) (items out : list value) :
  Forall2 (fun x y => f x = Valid y) items out ->
  all_valid (map f items) = Some out.
Proof.
  induction 1 as [|x y xs ys Hxy _ IH]; simpl.
  - reflexivity.
  - rewrite Hxy, IH. reflexivity.
Qed.

Lemma parse_array_inv (item : schema) (max : option nat) (v v' : value) :
  parse (ZArray item max) v = Valid v' ->
  exists items out,
    v = VArr items /\ v' = VArr out /\
    Forall2 (fun x y => parse item x = Valid y) items out /\
    (forall m, max = Some m -> length items <= m).
Proof.
  simpl. destruct v; try discriminate. unfold merge_array.
  destruct max as [m|].
  - destruct (Nat.ltb m (length items)) eqn:Hm; [discriminate|].
    destruct (all_valid _) as [out|] eqn:E; [|discriminate].
    intros H. injection H as <-. exists items, out.
    repeat split; auto using all_valid_Forall2.
    intros m' Hm'. injection Hm' as <-. apply Nat.ltb_ge in Hm. exact Hm.
  - destruct (all_valid _) as [out|] eqn:E; [|discriminate].
    intros H. injection H as <-. exists items, out.
    repeat split; auto using all_valid_Forall2. discriminate.
Qed.

(** An array within its bound whose items all parse is valid. *)
Lemma parse_array_valid (item : schema) (max : option nat) (items out : list value) :
  (forall m, max = Some m -> length items <= m) ->
  Forall2 (fun x y => parse item x = Valid y) items out ->
  parse (ZArray item max) (VArr items) = Valid (VArr out).
Proof.
  intros Hlen Hall. simpl. unfold merge_array.
  rewrite (Forall2_all_valid _ _ _ Hall).
  destruct max as [m|]; [|reflexivity].
  specialize (Hlen m eq_refl). apply Nat.ltb_ge in Hlen. rewrite Hlen. reflexivity.
Qed.

(** An array over its bound reports [too_big] first. *)
Lemma parse_array_too_big (item : schema) (m : nat) (items : list value) :
  m < length items ->
  exists rest, parse (ZArray item (Some m)) (VArr items) = Invalid (too_big :: rest).
Proof.
  intros Hlen. simpl. apply Nat.ltb_lt in Hlen. rewrite Hlen.
  unfold merge_array. simpl. eauto.
Qed.

Lemma Forall2_string_items (cs : list string_check) (items out : list value) :
  Forall2 (fun x y => parse (ZString cs) x = Valid y) items out -> out = items.
Proof.
  induction 1 as [|x y xs ys Hxy _ IH].
  - reflexivity.
  - destruct (parse_string_inv _ _ _ Hxy) as [-> _]. rewrite IH. reflexivity.
Qed.

(** One address or a list of addresses: the value comes out as it went in. *)
Lemma parse_addresses_inv (v v' : value) :
  parse addresses v = Valid v' ->
  v' = v /\
  ((exists s, v = VStr s /\ is_email s = true) \/ exists items, v = VArr items).
Proof.
  unfold addresses. intros H.
  change (match parse (ZString [Email]) v with
          | Valid x => Valid x
          | Invalid _ =>
              match parse (ZArray (ZString [Email]) None) v with
              | Valid x => Valid x
              | Invalid _ => Invalid [invalid_union]
              end
          end = Valid v') in H.
  destruct (parse (ZString [Email]) v) as [x|] eqn:E1.
  - injection H as <-. destruct (parse_email_string_inv _ _ E1) as (-> & s & -> & Hs).
    split; [reflexivity|]. left. eauto.
  - destruct (parse (ZArray (ZString [Email]) None) v) as [x|] eqn:E2; [|discriminate].
    injection H as <-.
    destruct (parse_array_inv _ _ _ _ E2) as (items & out & -> & -> & Hall & _).
    rewrite (Forall2_string_items _ _ _ Hall). split; [reflexivity|]. right. eauto.
Qed.

Lemma parse_optional_addresses_inv (v v' : value) :
  parse (ZOptional addresses) v = Valid v' ->
  v' = v /\
  (v = VUndefined \/ (exists s, v = VStr s /\ is_email s = true)
   \/ exists items, v = VArr items).
Proof.
  intros H.
  assert (Hcases : v = VUndefined \/ v <> VUndefined)
    by (destruct v; auto; right; discriminate).
  destruct Hcases as [-> | Hv].
  - apply parse_optional_omitted in H. auto.
  - rewrite parse_optional_supplied in H by exact Hv.
    apply parse_addresses_inv in H. intuition.
Qed.

Lemma parse_optional_string_inv (cs : list string_check) (v v' : value) :
  parse (ZOptional (ZString cs)) v = Valid v' ->
  v' = v /\ (v = VUndefined \/ exists s, v = VStr s /\ flat_map (check_issue s) cs = []).
Proof.
  intros H.
  assert (Hcases : v = VUndefined \/ v <> VUndefined)
    by (destruct v; auto; right; discriminate).
  destruct Hcases as [-> | Hv].
  - apply parse_optional_omitted in H. auto.
  - rewrite parse_optional_supplied in H by exact Hv.
    apply parse_string_inv in H. intuition.
Qed.

End ParseFacts.

(** ** The arguments and the request of send-email *)

Section SendEmailFacts.
Context {PF : Platform}.
Variable c : config.

Lemma send_email_shape_nodup : NoDup (map fst (send_email_shape c)).
Proof.
  unfold send_email_shape.
  destruct (negb (truthy (sender_value c)));
    destruct (Nat.eqb (length (replierEmailAddresses c)) 0); simpl;
    repeat (constructor; [simpl; intuition discriminate|]); constructor.
Qed.

Lemma send_email_field (raw args : value) (k : string) (s : schema) :
  validate c send_email raw = Valid args ->
  In (k, s) (send_email_shape c) ->
  parse s (get raw k) = Valid (get args k).
Proof.
  intros H Hin.
  exact (parse_object_field _ _ _ _ _ H send_email_shape_nodup Hin).
Qed.

Lemma send_email_strip (raw args : value) (k : string) :
  validate c send_email raw = Valid args ->
  ~ In k (map fst (send_email_shape c)) ->
  get args k = VUndefined.
Proof. intros H Hk. exact (parse_object_strip _ _ _ _ H Hk). Qed.

(** The parameters that every configuration has. *)
Lemma send_email_fixed (k : string) (s : schema) :
  In (k, s)
     [ ("to", addresses); ("subject", ZString []); ("text", ZString []);
       ("html", ZOptional (ZString [])); ("cc", ZOptional addresses);
       ("bcc", ZOptional addresses); ("scheduledAt", ZOptional (ZString []));
       ("tags", ZOptional (ZArray tag_schema None));
       ("attachments",
         ZOptional
           (ZArray
              (ZObject [("filename", ZString []); ("content", ZString []);
                        ("path", ZOptional (ZString []))])
              None));
       ("headers", ZOptional (ZRecord (ZString []))) ] ->
  In (k, s) (send_email_shape c).
Proof. intros H. unfold send_email_shape. apply in_or_app. left. exact H. Qed.

(** An optional parameter that the invocation omits is [undefined] for the
    handler. *)
Lemma send_email_omitted (raw args : value) (k : string) :
  validate c send_email raw = Valid args ->
  In k ["html"; "scheduledAt"; "cc"; "bcc"; "tags"; "attachments"; "headers"] ->
  get raw k = VUndefined ->
  get args k = VUndefined.
Proof.
  intros H Hk Hraw.
  assert (Hs : exists s, In (k, ZOptional s) (send_email_shape c)).
  { simpl in Hk.
    repeat (destruct Hk as [<- | Hk];
            [eexists; apply send_email_fixed; simpl; tauto|]).
    contradiction. }
  destruct Hs as [s Hs].
  pose proof (send_email_field _ _ _ _ H Hs) as Hp.
  rewrite Hraw in Hp. exact (parse_optional_omitted _ _ Hp).
Qed.

(** [from] is a parameter exactly when no sender is configured. *)
Lemma from_in_shape :
  truthy (sender_value c) = false ->
  In ("from", ZString [Email; MinLength 1]) (send_email_shape c).
Proof.
  intros H. unfold send_email_shape. rewrite H. cbn [negb].
  apply in_or_app. right. apply in_or_app. left. left. reflexivity.
Qed.

Lemma from_not_in_shape :
  truthy (sender_value c) = true ->
  ~ In "from" (map fst (send_email_shape c)).
Proof.
  intros H. unfold send_email_shape. rewrite H. simpl.
  destruct (Nat.eqb (length (replierEmailAddresses c)) 0); simpl;
    intuition discriminate.
Qed.

(** [replyTo] is a parameter exactly when no reply-to address is configured. *)
Lemma replyTo_in_shape :
  replierEmailAddresses c = [] ->
  In ("replyTo", ZOptional addresses) (send_email_shape c).
Proof.
  intros H. unfold send_email_shape. rewrite H. cbn [length Nat.eqb].
  apply in_or_app. right. apply in_or_app. right. left. reflexivity.
Qed.

Lemma replyTo_not_in_shape :
  replierEmailAddresses c <> [] ->
  ~ In "replyTo" (map fst (send_email_shape c)).
Proof.
  intros H. unfold send_email_shape.
  destruct (replierEmailAddresses c) as [|r rs]; [congruence|]. simpl.
  destruct (negb (truthy (sender_value c))); simpl; intuition discriminate.
Qed.

(** The sender that the handler resolves from validated arguments. *)
Lemma from_resolved (raw args : value) :
  validate c send_email raw = Valid args ->
  (truthy (sender_value c) = true /\ fromEmailAddress c args = sender_value c)
  \/ (truthy (sender_value c) = false /\
      exists s, get raw "from" = VStr s /\ is_email s = true /\
                1 <= String.length s /\ fromEmailAddress c args = VStr s).
Proof.
  intros H. unfold fromEmailAddress.
  destruct (truthy (sender_value c)) eqn:Hs.
  - left. split; [reflexivity|].
    rewrite (send_email_strip _ _ _ H (from_not_in_shape Hs)). reflexivity.
  - right. split; [reflexivity|].
    pose proof (send_email_field _ _ _ _ H (from_in_shape Hs)) as Hp.
    destruct (parse_string_inv _ _ _ Hp) as (Heq & s & Hraw & Hchecks).
    exists s. rewrite Heq, Hraw. cbn [flat_map check_issue] in Hchecks.
    destruct (is_email s); [|discriminate].
    destruct (Nat.leb 1 (String.length s)) eqn:Hlen; [|discriminate].
    apply Nat.leb_le in Hlen. auto.
Qed.

Lemma from_is_string (raw args : value) :
  validate c send_email raw = Valid args ->
  is_string (fromEmailAddress c args) = true.
Proof.
  intros H. destruct (from_resolved _ _ H) as [[Hs ->] | (_ & s & _ & _ & _ & ->)].
  - unfold sender_value in *. destruct (senderEmailAddress c); [reflexivity | discriminate].
  - reflexivity.
Qed.

(** A validated invocation reaches the gateway with [emailRequest]. *)
Lemma send_email_calls (raw args : value) :
  validate c send_email raw = Valid args ->
  call_tool c send_email raw = handle_send_email c args /\
  first_call (call_tool c send_email raw)
  = Some (EmailsSend (VObj (emailRequest c args))).
Proof.
  intros H. unfold call_tool. rewrite H. simpl. split; [reflexivity|].
  unfold handle_send_email. rewrite (from_is_string _ _ H). reflexivity.
Qed.

(** The reply-to value that the handler resolves. *)
Lemma replyTo_resolved (raw args : value) :
  validate c send_email raw = Valid args ->
  (replierEmailAddresses c <> [] /\ replyToEmailAddresses c args = repliers_value c)
  \/ (replierEmailAddresses c = [] /\ get args "replyTo" = get raw "replyTo" /\
      (get raw "replyTo" = VUndefined
       \/ (exists s, get raw "replyTo" = VStr s /\ is_email s = true)
       \/ exists items, get raw "replyTo" = VArr items)).
Proof.
  intros H. destruct (replierEmailAddresses c) as [|r rs] eqn:Hr.
  - right. split; [reflexivity|].
    pose proof (send_email_field _ _ _ _ H (replyTo_in_shape Hr)) as Hp.
    destruct (parse_optional_addresses_inv _ _ Hp) as [Heq Hcases]. auto.
  - left. split; [discriminate|]. unfold replyToEmailAddresses.
    rewrite (send_email_strip _ _ _ H); [reflexivity|].
    apply replyTo_not_in_shape. congruence.
Qed.

(** Reading a property of [emailRequest]. *)
Ltac request_lookup :=
  unfold emailRequest; cbv zeta; rewrite !lookup_assign_if;
  cbn [lookup String.eqb Ascii.eqb Bool.eqb andb];
  rewrite ?andb_false_r, ?andb_true_r.

Lemma emailRequest_from (args : value) :
  lookup "from" (emailRequest c args) = Some (fromEmailAddress c args).
Proof. request_lookup. reflexivity. Qed.

Lemma emailRequest_replyTo (args : value) :
  lookup "replyTo" (emailRequest c args)
  = if truthy (replyToEmailAddresses c args)
       && (is_string (replyToEmailAddresses c args)
           || is_nonempty_array (replyToEmailAddresses c args))
    then Some (replyToEmailAddresses c args)
    else None.
Proof. request_lookup. reflexivity. Qed.

Lemma emailRequest_optional (args : value) (k : string) :
  In k ["html"; "scheduledAt"; "cc"; "bcc"; "tags"; "attachments"; "headers"] ->
  lookup k (emailRequest c args)
  = if truthy (get args k) then Some (get args k) else None.
Proof.
  intros Hk. simpl in Hk.
  repeat (destruct Hk as [<- | Hk]; [request_lookup; reflexivity|]).
  contradiction.
Qed.

Lemma emailRequest_keys (args : value) (k : string) :
  has_key k (emailRequest c args) = true ->
  In k ["to"; "subject"; "text"; "from"; "replyTo"; "html"; "scheduledAt"; "cc";
        "bcc"; "tags"; "attachments"; "headers"].
Proof.
  unfold has_key, emailRequest. cbv zeta. rewrite !lookup_assign_if.
  cbn [lookup].
  repeat match goal with
         | |- context [String.eqb k ?x] =>
             destruct (String.eqb_spec k x) as [-> | _]; [simpl; tauto|]
         end.
  rewrite ?andb_false_r. discriminate.
Qed.

End SendEmailFacts.

(** * The contract *)

Section Contract.
Context {PF : Platform}.

(** ** send-email and send-broadcast: fields of the request *)

(** C5.  The request of a validated send-email invocation is the one sent to
    the gateway, and it has only properties that the invocation provided or
    that come from a configured sender or a non-empty configured reply-to
    list; an optional parameter that the invocation omits is not a property
    of the request at all.  A send-broadcast invocation without [scheduledAt]
    passes [undefined] for the options, so no scheduling field exists. *)
Theorem request_has_only_provided_fields (c : config) (raw args braw bargs : value) :
  validate c send_email raw = Valid args ->
  validate c send_broadcast braw = Valid bargs ->
  first_call (call_tool c send_email raw)
  = Some (EmailsSend (VObj (emailRequest c args)))
  /\ (forall k, has_key k (emailRequest c args) = true ->
        get raw k <> VUndefined
        \/ (k = "from" /\ truthy (sender_value c) = true)
        \/ (k = "replyTo" /\ replierEmailAddresses c <> []))
  /\ (forall k,
        In k ["html"; "scheduledAt"; "cc"; "bcc"; "tags"; "attachments"; "headers"] ->
        get raw k = VUndefined ->
        has_key k (emailRequest c args) = false)
  /\ (replierEmailAddresses c = [] -> get raw "replyTo" = VUndefined ->
      has_key "replyTo" (emailRequest c args) = false)
  /\ (get braw "scheduledAt" = VUndefined ->
      first_call (call_tool c send_broadcast braw)
      = Some (BroadcastsSend (get braw "broadcastId") VUndefined)).
Proof.
  intros H Hb.
  assert (Homit : forall k,
             In k ["html"; "scheduledAt"; "cc"; "bcc"; "tags"; "attachments"; "headers"] ->
             get raw k = VUndefined -> has_key k (emailRequest c args) = false).
  { intros k Hk Hraw. unfold has_key. rewrite (emailRequest_optional c args k Hk).
    rewrite (send_email_omitted c _ _ _ H Hk Hraw). reflexivity. }
  assert (Hreply : replierEmailAddresses c = [] -> get raw "replyTo" = VUndefined ->
                   has_key "replyTo" (emailRequest c args) = false).
  { intros Hr Hraw. unfold has_key. rewrite emailRequest_replyTo.
    destruct (replyTo_resolved c _ _ H) as [[Hne _] | (_ & Hargs & _)]; [contradiction|].
    unfold replyToEmailAddresses, repliers_value. rewrite Hargs, Hraw, Hr. reflexivity. }
  split; [exact (proj2 (send_email_calls c _ _ H))|].
  split; [|split; [exact Homit | split; [exact Hreply|]]].
  - intros k Hk. pose proof (emailRequest_keys c args k Hk) as Hin. simpl in Hin.
    destruct Hin as [<- | [<- | [<- | [<- | [<- | Hin]]]]].
    + left. intros Hraw.
      pose proof (send_email_field c _ _ _ _ H
                    (send_email_fixed c "to" addresses ltac:(simpl; tauto))) as Hp.
      destruct (parse_addresses_inv _ _ Hp) as [_ [(s & Hs & _) | (items & Hs)]];
        congruence.
    + left. intros Hraw.
      pose proof (send_email_field c _ _ _ _ H
                    (send_email_fixed c "subject" (ZString []) ltac:(simpl; tauto))) as Hp.
      destruct (parse_string_inv _ _ _ Hp) as (_ & s & Hs & _). congruence.
    + left. intros Hraw.
      pose proof (send_email_field c _ _ _ _ H
                    (send_email_fixed c "text" (ZString []) ltac:(simpl; tauto))) as Hp.
      destruct (parse_string_inv _ _ _ Hp) as (_ & s & Hs & _). congruence.
    + destruct (from_resolved c _ _ H) as [[Hs _] | (_ & s & Hraw & _)].
      * right. left. auto.
      * left. congruence.
    + destruct (replierEmailAddresses c) as [|r rs] eqn:Hr.
      * left. intros Hraw. rewrite (Hreply eq_refl Hraw) in Hk. discriminate.
      * right. right. split; [reflexivity | discriminate].
    + left. intros Hraw. rewrite (Homit k) in Hk; [discriminate | | exact Hraw].
      simpl. tauto.
  - intros Hraw. unfold call_tool. rewrite Hb. simpl.
    assert (Hnd : NoDup (map fst (shape c send_broadcast))).
    { simpl. repeat (constructor; [simpl; intuition discriminate|]). constructor. }
    pose proof (parse_object_field _ _ _ "broadcastId" _ Hb Hnd ltac:(simpl; tauto)) as Hid.
    pose proof (parse_object_field _ _ _ "scheduledAt" _ Hb Hnd ltac:(simpl; tauto)) as Hat.
    destruct (parse_string_inv _ _ _ Hid) as [Heq _].
    rewrite Hraw in Hat. apply parse_optional_omitted in Hat.
    unfold broadcast_options. rewrite Hat, Heq. reflexivity.
Qed.

(** ** delete-contact: one identifier is required *)

(** C6.  A delete-contact invocation with neither [contactId] nor [email]
    fails before any gateway call: no call is made whatever the gateway, and
    when the other arguments pass validation the failure is the error
    "Either contactId or email must be provided". *)
Theorem delete_contact_missing_identifier
    (c : config) (raw : value) (gateway : gateway_call -> response) :
  get raw "contactId" = VUndefined ->
  get raw "email" = VUndefined ->
  (exists e, run gateway (call_tool c delete_contact raw) = ([], inl e))
  /\ (forall args, validate c delete_contact raw = Valid args ->
        handle_delete_contact args
        = Throw (Error "Either contactId or email must be provided")
        /\ run gateway (call_tool c delete_contact raw)
           = ([], inl (Error "Either contactId or email must be provided"))).
Proof.
  intros Hid Hmail.
  assert (Hvalid : forall args, validate c delete_contact raw = Valid args ->
            handle_delete_contact args
            = Throw (Error "Either contactId or email must be provided")).
  { intros args H.
    assert (Hnd : NoDup (map fst (shape c delete_contact))).
    { simpl. repeat (constructor; [simpl; intuition discriminate|]). constructor. }
    pose proof (parse_object_field _ _ _ "contactId" _ H Hnd ltac:(simpl; tauto)) as H1.
    pose proof (parse_object_field _ _ _ "email" _ H Hnd ltac:(simpl; tauto)) as H2.
    rewrite Hid in H1. rewrite Hmail in H2.
    apply parse_optional_omitted in H1. apply parse_optional_omitted in H2.
    unfold handle_delete_contact. rewrite H1, H2. reflexivity. }
  split.
  - unfold call_tool. destruct (validate c delete_contact raw) as [args|issues] eqn:H.
    + simpl. rewrite (Hvalid args eq_refl). simpl. eauto.
    + simpl. eauto.
  - intros args H. split; [exact (Hvalid args H)|].
    unfold call_tool. rewrite H. simpl. rewrite (Hvalid args H). reflexivity.
Qed.

(** ** Every tool: failures of the gateway *)

Ltac unfold_handlers :=
  unfold handle_send_email, handle_send_batch_emails, handle_get_email,
    handle_update_email, handle_cancel_email, handle_create_domain,
    handle_list_domains, handle_get_domain, handle_update_domain,
    handle_delete_domain, handle_verify_domain, handle_create_api_key,
    handle_list_api_keys, handle_delete_api_key, handle_create_audience,
    handle_list_audiences, handle_get_audience, handle_delete_audience,
    handle_create_contact, handle_list_contacts, handle_get_contact,
    handle_update_contact, handle_delete_contact, handle_create_broadcast,
    handle_list_broadcasts, handle_get_broadcast, handle_send_broadcast,
    handle_delete_broadcast.

Lemma handler_surfaces_failure (c : config) (t : tool) (args : value) :
  surfaces_failure (failure_prefix t) (handler c t args).
Proof.
  destruct t; cbn [handler failure_prefix]; unfold_handlers; cbv zeta;
    repeat match goal with
           | |- surfaces_failure _ (if ?b then _ else _) => destruct b
           | |- surfaces_failure _ (match ?x with _ => _ end) => destruct x
           end;
    cbn [surfaces_failure]; auto; intros r Hr; rewrite Hr; reflexivity.
Qed.

Lemma run_surfaced (prefix : string) (p : prog tool_result)
    (gateway : gateway_call -> response) (call : gateway_call)
    (calls : list gateway_call) (outcome : exn + tool_result) :
  surfaces_failure prefix p ->
  run gateway p = (call :: calls, outcome) ->
  truthy (error (gateway call)) = true ->
  calls = [] /\
  outcome = inl (Error (prefix ++ JSON_stringify (error (gateway call)))).
Proof.
  destruct p as [a | e | c0 k]; simpl; try discriminate.
  intros Hs Hrun Herr.
  destruct (run gateway (k (gateway c0))) as [cs o] eqn:E.
  injection Hrun as <- <- <-.
  rewrite (Hs _ Herr) in E. simpl in E. injection E as <- <-. auto.
Qed.

(** C7.  For every tool and every invocation: when the gateway is called and
    its response carries an error (a structured error is an object, hence
    truthy), that call is the only one made, and the outcome is a failure
    whose message is the tool's prefix followed by the JSON serialization of
    the error. *)
Theorem upstream_failure_surfaced
    (c : config) (t : tool) (raw : value) (gateway : gateway_call -> response)
    (call : gateway_call) (calls : list gateway_call) (outcome : exn + tool_result) :
  run gateway (call_tool c t raw) = (call :: calls, outcome) ->
  truthy (error (gateway call)) = true ->
  calls = [] /\
  outcome = inl (Error (failure_prefix t ++ JSON_stringify (error (gateway call)))).
Proof.
  unfold call_tool. destruct (validate c t raw) as [args|issues].
  - apply run_surfaced. apply handler_surfaces_failure.
  - simpl. discriminate.
Qed.

(** ** send-batch-emails *)

Lemma batch_entry_nodup :
  NoDup (map fst
    [ ("to", addresses); ("subject", ZString []); ("text", ZString []);
      ("from", ZOptional (ZString [Email])); ("html", ZOptional (ZString []));
      ("cc", ZOptional addresses); ("bcc", ZOptional addresses);
      ("replyTo", ZOptional addresses); ("scheduledAt", ZOptional (ZString []));
      ("tags", ZOptional (ZArray tag_schema None));
      ("attachments",
        ZOptional (ZArray (ZObject [("filename", ZString []); ("content", ZString [])]) None));
      ("headers", ZOptional (ZRecord (ZString []))) ]).
Proof.
  simpl. repeat (constructor; [simpl; intuition discriminate|]). constructor.
Qed.

(** The [from] of a validated entry is the one of the raw entry: absent, or
    an email string. *)
Lemma batch_entry_from (entry validated : value) :
  parse batch_entry entry = Valid validated ->
  get validated "from" = get entry "from"
  /\ (get entry "from" = VUndefined
      \/ exists s, get entry "from" = VStr s /\ is_email s = true).
Proof.
  unfold batch_entry. intros H.
  pose proof (parse_object_field _ _ _ "from" _ H batch_entry_nodup
                ltac:(simpl; tauto)) as Hp.
  destruct (parse_optional_string_inv _ _ _ Hp) as [Heq [Hu | (s & Hs & Hc)]].
  - auto.
  - split; [exact Heq|]. right. exists s. split; [exact Hs|].
    cbn [flat_map check_issue] in Hc. destruct (is_email s); [reflexivity | discriminate].
Qed.

Lemma Forall2_map_right {A B C : Type} (R : A -> B -> Prop) (Q : A -> C -> Prop)
    (f : B -> C) (xs : list A) (ys : list B) :
  (forall x y, R x y -> Q x (f y)) ->
  Forall2 R xs ys -> Forall2 Q xs (map f ys).
Proof. intros HRQ. induction 1; simpl; constructor; auto. Qed.

(** What a validated batch sends: one request per entry, whose [from] is the
    entry's when it has one and the configured sender otherwise; after the
    call the handler throws an [Error] only for an error of the gateway. *)
Lemma batch_forwarded (c : config) (raw args : value) :
  validate c send_batch_emails raw = Valid args ->
  exists entries reqs k,
    get raw "emails" = VArr entries
    /\ length entries <= 100
    /\ call_tool c send_batch_emails raw = Call (BatchSend (VArr reqs)) k
    /\ Forall2 (fun entry req =>
                  get req "from"
                  = if is_undefined (get entry "from") then sender_value c
                    else get entry "from")
               entries reqs
    /\ (forall response m,
          k response = Throw (Error m) ->
          truthy (error response) = true
          /\ m = "Batch email failed to send: " ++ JSON_stringify (error response)).
Proof.
  intros H.
  assert (Hnd : NoDup (map fst (shape c send_batch_emails))).
  { simpl. repeat constructor. simpl. tauto. }
  pose proof (parse_object_field _ _ _ "emails" _ H Hnd ltac:(simpl; tauto)) as Hp.
  destruct (parse_array_inv _ _ _ _ Hp) as (entries & out & Hraw & Hargs & Hall & Hmax).
  exists entries, (batchEmails c out). eexists.
  split; [exact Hraw|]. split; [exact (Hmax 100 eq_refl)|].
  split; [|split].
  - unfold call_tool. rewrite H. cbn [handler]. unfold handle_send_batch_emails.
    rewrite Hargs. reflexivity.
  - unfold batchEmails.
    refine (Forall2_map_right _ _ _ _ _ _ Hall).
    intros entry validated Hv. cbv beta in Hv |- *.
    destruct (batch_entry_from _ _ Hv) as [Heq Hcases].
    unfold get at 1. rewrite lookup_assign, String.eqb_refl.
    rewrite Heq. unfold js_or.
    destruct Hcases as [-> | (s & -> & Hs)].
    + reflexivity.
    + rewrite (email_truthy s Hs). reflexivity.
  - intros response m. cbv beta.
    destruct (truthy (error response)).
    + intros Hk. injection Hk as <-. auto.
    + destruct (data response); try discriminate;
        destruct (get _ "data"); try discriminate;
        destruct (ids_of _); discriminate.
Qed.

(** ** The sender of send-email and of a batch entry *)

(** C1, as the code has it.  send-email: the sender of the outgoing request
    is the configured sender whenever one is configured, because [from] is
    then not a parameter and validation strips it; it is the [from] of the
    invocation when none is configured.  The handler itself prefers a [from]
    that reaches it.  send-batch-emails: the sender of each request is the
    [from] of its entry when the entry has one, and the configured sender
    otherwise. *)
Theorem sender_resolution (c : config) :
  (forall raw args,
      validate c send_email raw = Valid args ->
      first_call (call_tool c send_email raw)
      = Some (EmailsSend (VObj (emailRequest c args)))
      /\ get (VObj (emailRequest c args)) "from"
         = if truthy (sender_value c) then sender_value c else get raw "from")
  /\ (truthy (sender_value c) = true -> ~ In "from" (map fst (shape c send_email)))
  /\ (forall args s, get args "from" = VStr s -> fromEmailAddress c args = VStr s)
  /\ (forall raw args,
        validate c send_batch_emails raw = Valid args ->
        exists entries reqs,
          get raw "emails" = VArr entries
          /\ first_call (call_tool c send_batch_emails raw)
             = Some (BatchSend (VArr reqs))
          /\ Forall2 (fun entry req =>
                        get req "from"
                        = if is_undefined (get entry "from") then sender_value c
                          else get entry "from")
                     entries reqs).
Proof.
  split; [|split; [|split]].
  - intros raw args H. split; [exact (proj2 (send_email_calls c _ _ H))|].
    unfold get at 1. rewrite emailRequest_from.
    destruct (from_resolved c _ _ H) as [[Hs Hfrom] | (Hs & s & Hraw & _ & _ & Hfrom)];
      rewrite Hs, Hfrom; congruence.
  - exact (from_not_in_shape c).
  - intros args s Hs. unfold fromEmailAddress. rewrite Hs. reflexivity.
  - intros raw args H.
    destruct (batch_forwarded c _ _ H) as (entries & reqs & k & Hraw & _ & Hcall & Hall & _).
    exists entries, reqs. rewrite Hcall. auto.
Qed.

(** ** send-batch-emails: the size of the batch *)

Lemma parse_object_single (k : string) (s : schema) (fs : object) :
  parse (ZObject [(k, s)]) (VObj fs)
  = match parse s (get (VObj fs) k) with
    | Valid v => Valid (VObj (if has_key k fs || negb (is_undefined v) then [(k, v)] else []))
    | Invalid errs => Invalid (errs ++ [])%list
    end.
Proof.
  cbn [parse map fst snd]. unfold merge_object. cbn [all_valid_fields flat_map snd].
  destruct (parse s (get (VObj fs) k)); reflexivity.
Qed.

Lemma Forall_valid_Forall2 (f : value -> parsed) (items : list value) :
  Forall (fun x => exists y, f x = Valid y) items ->
  exists out, Forall2 (fun x y => f x = Valid y) items out.
Proof.
  induction 1 as [|x xs [y Hy] _ [ys IH]].
  - exists []. constructor.
  - exists (y :: ys). constructor; auto.
Qed.

(** C2, as the code has it.  A list of at most 100 entries that are each
    valid passes validation, the empty list included; a list of more than
    100 entries is refused, and the first issue reported is [too_big]. *)
Theorem batch_size_validation (c : config) (fs : object) (entries : list value) :
  get (VObj fs) "emails" = VArr entries ->
  (length entries <= 100 ->
   Forall (fun entry => exists validated, parse batch_entry entry = Valid validated)
          entries ->
   exists args, validate c send_batch_emails (VObj fs) = Valid args)
  /\ (100 < length entries ->
      exists rest, validate c send_batch_emails (VObj fs) = Invalid (too_big :: rest)).
Proof.
  intros Hget. unfold validate. cbn [shape]. rewrite parse_object_single, Hget. split.
  - intros Hlen Hall. destruct (Forall_valid_Forall2 _ _ Hall) as [out Hout].
    rewrite (parse_array_valid _ _ _ out); [eauto | | exact Hout].
    intros m Hm. injection Hm as <-. exact Hlen.
  - intros Hlen. destruct (parse_array_too_big batch_entry 100 entries Hlen) as [rest ->].
    simpl. eauto.
Qed.

(** ** send-email: reply-to *)

(** C4.  With no reply-to address configured, [replyTo] is an optional
    parameter of send-email; a supplied value is the reply-to the handler
    resolves, and the request carries it unless it is the empty list.  With
    one or more configured, [replyTo] is not in the shape and the request of
    every validated invocation carries the configured list. *)
Theorem reply_to_resolution (c : config) (raw args : value) :
  validate c send_email raw = Valid args ->
  first_call (call_tool c send_email raw)
  = Some (EmailsSend (VObj (emailRequest c args)))
  /\ (replierEmailAddresses c = [] ->
      In ("replyTo", ZOptional addresses) (shape c send_email)
      /\ (get raw "replyTo" <> VUndefined ->
          replyToEmailAddresses c args = get raw "replyTo")
      /\ lookup "replyTo" (emailRequest c args)
         = if no_addresses (get raw "replyTo") then None
           else Some (get raw "replyTo"))
  /\ (replierEmailAddresses c <> [] ->
      ~ In "replyTo" (map fst (shape c send_email))
      /\ lookup "replyTo" (emailRequest c args) = Some (repliers_value c)).
Proof.
  intros H. split; [exact (proj2 (send_email_calls c _ _ H))|]. split.
  - intros Hr. split; [exact (replyTo_in_shape c Hr)|].
    destruct (replyTo_resolved c _ _ H) as [[Hne _] | (_ & Hargs & Hcases)];
      [contradiction|].
    rewrite emailRequest_replyTo. unfold replyToEmailAddresses, repliers_value.
    rewrite Hargs, Hr.
    destruct Hcases as [-> | [(s & -> & Hs) | (items & ->)]].
    + split; [congruence | reflexivity].
    + cbn [nullish_or is_string orb no_addresses]. rewrite (email_truthy s Hs). auto.
    + destruct items; auto.
  - intros Hr. split; [exact (replyTo_not_in_shape c Hr)|].
    destruct (replyTo_resolved c _ _ H) as [[_ Hres] | (He & _)]; [|contradiction].
    rewrite emailRequest_replyTo, Hres. unfold repliers_value.
    destruct (replierEmailAddresses c); [congruence | reflexivity].
Qed.

(** ** send-email: empty values *)

(** The handler reads an optional parameter only through its truth value
    before it copies it. *)
Lemma falsy_like_absent (c : config) (k : string) (args1 args2 : value) :
  In k ["html"; "scheduledAt"] ->
  (forall k', k' <> k -> get args1 k' = get args2 k') ->
  truthy (get args1 k) = false ->
  truthy (get args2 k) = false ->
  handle_send_email c args1 = handle_send_email c args2.
Proof.
  intros Hk Hsame H1 H2.
  unfold handle_send_email, emailRequest, fromEmailAddress, replyToEmailAddresses.
  cbv zeta. simpl in Hk. destruct Hk as [<- | [<- | []]].
  - rewrite H1, H2.
    rewrite !(Hsame "to"), !(Hsame "subject"), !(Hsame "text"), !(Hsame "from"),
      !(Hsame "replyTo"), !(Hsame "scheduledAt"), !(Hsame "cc"), !(Hsame "bcc"),
      !(Hsame "tags"), !(Hsame "attachments"), !(Hsame "headers") by discriminate.
    reflexivity.
  - rewrite H1, H2.
    rewrite !(Hsame "to"), !(Hsame "subject"), !(Hsame "text"), !(Hsame "from"),
      !(Hsame "replyTo"), !(Hsame "html"), !(Hsame "cc"), !(Hsame "bcc"),
      !(Hsame "tags"), !(Hsame "attachments"), !(Hsame "headers") by discriminate.
    reflexivity.
Qed.

(** C9, as the code has it.  [html] or [scheduledAt] supplied as the empty
    string is left out of the request, and the handler runs exactly as if the
    parameter were absent.  [cc] or [bcc] is never the empty string after
    validation, since that is no email address; supplied as the empty list,
    it is a property of the request, with the empty list as its value. *)
Theorem empty_optional_values (c : config) (raw args : value) :
  validate c send_email raw = Valid args ->
  first_call (call_tool c send_email raw)
  = Some (EmailsSend (VObj (emailRequest c args)))
  /\ (forall k, In k ["html"; "scheduledAt"] -> get raw k = VStr "" ->
        lookup k (emailRequest c args) = None
        /\ forall absent,
             (forall k', k' <> k -> get args k' = get absent k') ->
             get absent k = VUndefined ->
             handle_send_email c args = handle_send_email c absent)
  /\ (forall k, In k ["cc"; "bcc"] -> get raw k <> VStr "")
  /\ (forall k, In k ["cc"; "bcc"] -> get raw k = VArr [] ->
        lookup k (emailRequest c args) = Some (VArr [])).
Proof.
  intros H. split; [exact (proj2 (send_email_calls c _ _ H))|].
  assert (Hstr : forall k, In k ["html"; "scheduledAt"] ->
                 parse (ZOptional (ZString [])) (get raw k) = Valid (get args k)).
  { intros k Hk. apply (send_email_field c _ _ _ _ H). apply send_email_fixed.
    simpl in Hk. destruct Hk as [<- | [<- | []]]; simpl; tauto. }
  assert (Haddr : forall k, In k ["cc"; "bcc"] ->
                  parse (ZOptional addresses) (get raw k) = Valid (get args k)).
  { intros k Hk. apply (send_email_field c _ _ _ _ H). apply send_email_fixed.
    simpl in Hk. destruct Hk as [<- | [<- | []]]; simpl; tauto. }
  split; [|split].
  - intros k Hk Hraw.
    destruct (parse_optional_string_inv _ _ _ (Hstr k Hk)) as [Heq _].
    rewrite Hraw in Heq. split.
    + rewrite emailRequest_optional, Heq; [reflexivity|].
      simpl in Hk. simpl. tauto.
    + intros absent Hsame Habs. apply (falsy_like_absent c k); auto.
      * rewrite Heq. reflexivity.
      * rewrite Habs. reflexivity.
  - intros k Hk Hraw.
    destruct (parse_optional_addresses_inv _ _ (Haddr k Hk))
      as [_ [Hu | [(s & Hs & Hmail) | (items & Hs)]]]; try congruence.
    rewrite Hraw in Hs. injection Hs as <-. rewrite is_email_nonempty in Hmail.
    discriminate.
  - intros k Hk Hraw.
    destruct (parse_optional_addresses_inv _ _ (Haddr k Hk)) as [Heq _].
    rewrite Hraw in Heq.
    rewrite emailRequest_optional, Heq; [reflexivity|].
    simpl in Hk. simpl. tauto.
Qed.

End Contract.

(** * Worked examples *)

(** C3.  The shape of send-email puts no constraint on a tag beyond its two
    strings: every name and value parses, whatever its characters and its
    length.  The invocation [email_with_bad_tag], whose tag has a name outside
    ASCII and a value of 257 characters, passes validation and is sent to the
    gateway with the tag unchanged. *)
Theorem tag_limits_not_enforced :
  within_tag_limits bad_tag_name = false
  /\ within_tag_limits bad_tag_value = false
  /\ (forall (PF : Platform) (name val : string),
        parse tag_schema (VObj [("name", VStr name); ("value", VStr val)])
        = Valid (VObj [("name", VStr name); ("value", VStr val)]))
  /\ validate no_defaults send_email email_with_bad_tag = Valid email_with_bad_tag
  /\ first_call (call_tool no_defaults send_email email_with_bad_tag)
     = Some (EmailsSend
               (VObj (plain_email
                      ++ [("from", VStr "s@x.com"); ("tags", VArr [bad_tag])])%list)).
Proof.
  split; [vm_compute; reflexivity|]. split; [vm_compute; reflexivity|].
  split; [intros; reflexivity|].
  split; vm_compute; reflexivity.
Qed.

(** The send-email scenario of the specification: no defaults, all four
    required values supplied. *)
Example send_email_scenario :
  run accepting_gateway (call_tool no_defaults send_email email_with_from)
  = ([EmailsSend email_with_from],
     inr (TextResult "Email sent successfully! ID: em_1")).
Proof. reflexivity. Qed.

(** Three batch entries without [from], with a sender configured: every
    request carries the configured sender. *)
Example batch_scenario :
  first_call (call_tool sender_configured send_batch_emails
                (batch_of [VObj plain_email; VObj plain_email; VObj plain_email]))
  = Some (BatchSend
            (VArr (repeat (VObj (plain_email ++ [("from", VStr "d@x.com")])%list) 3))).
Proof. reflexivity. Qed.

(** With reply-to addresses configured, a [replyTo] of the invocation is
    stripped and the configured list is sent. *)
Example configured_reply_to_scenario :
  first_call (call_tool both_configured send_email email_with_reply_to)
  = Some (EmailsSend
            (VObj (plain_email
                   ++ [("from", VStr "d@x.com"); ("replyTo", VArr [VStr "r@x.com"])])%list)).
Proof. reflexivity. Qed.

Lemma request_has_only_provided_fields_witness :
  validate no_defaults send_email email_with_from = Valid email_with_from
  /\ validate no_defaults send_broadcast broadcast_now = Valid broadcast_now
  /\ first_call (call_tool no_defaults send_email email_with_from)
     = Some (EmailsSend (VObj (emailRequest no_defaults email_with_from))).
Proof.
  split; [reflexivity|]. split; [reflexivity|].
  exact (proj1 (request_has_only_provided_fields no_defaults email_with_from
                  email_with_from broadcast_now broadcast_now eq_refl eq_refl)).
Defined.

Lemma delete_contact_missing_identifier_witness :
  get delete_contact_without_identifier "contactId" = VUndefined
  /\ get delete_contact_without_identifier "email" = VUndefined
  /\ run failing_gateway (call_tool no_defaults delete_contact
                            delete_contact_without_identifier)
     = ([], inl (Error "Either contactId or email must be provided")).
Proof.
  split; [reflexivity|]. split; [reflexivity|].
  exact (proj2 (proj2 (delete_contact_missing_identifier no_defaults
                         delete_contact_without_identifier failing_gateway
                         eq_refl eq_refl)
                  delete_contact_without_identifier eq_refl)).
Defined.

Lemma upstream_failure_surfaced_witness :
  truthy (error (failing_gateway (EmailsSend email_with_from))) = true
  /\ snd (run failing_gateway (call_tool no_defaults send_email email_with_from))
     = inl (Error (failure_prefix send_email
                   ++ JSON_stringify (error (failing_gateway (EmailsSend email_with_from))))).
Proof.
  split; [reflexivity|].
  exact (proj2 (upstream_failure_surfaced no_defaults send_email email_with_from
                  failing_gateway (EmailsSend email_with_from) [] _
                  eq_refl eq_refl)).
Defined.

Lemma sender_resolution_witness :
  validate sender_configured send_email email_with_from = Valid (VObj plain_email)
  /\ get (VObj (emailRequest sender_configured (VObj plain_email))) "from"
     = VStr "d@x.com".
Proof.
  split; [reflexivity|].
  exact (proj2 (proj1 (sender_resolution sender_configured)
                  email_with_from (VObj plain_email) eq_refl)).
Defined.

Lemma batch_size_validation_witness :
  get (batch_of [VObj plain_email]) "emails" = VArr [VObj plain_email]
  /\ exists args,
      validate no_defaults send_batch_emails (batch_of [VObj plain_email]) = Valid args.
Proof.
  split; [reflexivity|].
  apply (proj1 (batch_size_validation no_defaults [("emails", VArr [VObj plain_email])]
                  [VObj plain_email] eq_refl)).
  - simpl. lia.
  - constructor; [|constructor]. exists (VObj plain_email). reflexivity.
Defined.

Lemma reply_to_resolution_witness :
  validate no_defaults send_email email_with_reply_to = Valid email_with_reply_to
  /\ lookup "replyTo" (emailRequest no_defaults email_with_reply_to)
     = Some (VStr "q@x.com").
Proof.
  split; [reflexivity|].
  exact (proj2 (proj2 (proj1 (proj2 (reply_to_resolution no_defaults email_with_reply_to
                                       email_with_reply_to eq_refl))
                         eq_refl))).
Defined.

Lemma empty_optional_values_witness :
  validate no_defaults send_email email_with_empty_html = Valid email_with_empty_html
  /\ lookup "html" (emailRequest no_defaults email_with_empty_html) = None.
Proof.
  assert (Hvalid : validate no_defaults send_email email_with_empty_html
                   = Valid email_with_empty_html) by reflexivity.
  split; [exact Hvalid|].
  apply (proj1 (proj2 (empty_optional_values no_defaults email_with_empty_html
                         email_with_empty_html Hvalid))).
  - simpl. tauto.
  - reflexivity.
Defined.

(** C1 as stated fails: with the sender [d@x.com] configured, an invocation
    that supplies [from: s@x.com] is sent with the configured sender. *)
Lemma supplied_from_overridden :
  ~ supplied_from_is_sender sender_configured email_with_from.
Proof.
  intros Hclaim.
  pose proof (Hclaim "s@x.com" _ eq_refl eq_refl) as H.
  vm_compute in H. discriminate H.
Qed.

(** C2 as stated fails: a batch without entries passes validation. *)
Lemma empty_batch_accepted : ~ empty_batch_rejected no_defaults.
Proof.
  intros [issues H]. vm_compute in H. discriminate H.
Qed.

(** C9 as stated fails: [cc] supplied as the empty list is a property of the
    request. *)
Lemma empty_cc_forwarded :
  ~ empty_value_omitted no_defaults email_with_empty_cc "cc".
Proof.
  intros Hclaim.
  pose proof (Hclaim _ (or_intror eq_refl) eq_refl) as H.
  vm_compute in H. discriminate H.
Qed.

(** * Further properties of the tools *)

Section Further.
Context {PF : Platform}.

Ltac open_handlers :=
  unfold handle_send_email, handle_send_batch_emails, handle_get_email,
    handle_update_email, handle_cancel_email, handle_create_domain,
    handle_list_domains, handle_get_domain, handle_update_domain,
    handle_delete_domain, handle_verify_domain, handle_create_api_key,
    handle_list_api_keys, handle_delete_api_key, handle_create_audience,
    handle_list_audiences, handle_get_audience, handle_delete_audience,
    handle_create_contact, handle_list_contacts, handle_get_contact,
    handle_update_contact, handle_delete_contact, handle_create_broadcast,
    handle_list_broadcasts, handle_get_broadcast, handle_send_broadcast,
    handle_delete_broadcast.

(** ** One gateway call per invocation *)

Lemma handler_calls_once (c : config) (t : tool) (args : value) :
  calls_once (handler c t args).
Proof.
  destruct t; cbn [handler]; open_handlers; cbv zeta;
    repeat match goal with
           | |- calls_once (if ?b then _ else _) => destruct b
           | |- calls_once (match ?x with _ => _ end) => destruct x
           end;
    cbn [calls_once]; auto; intros r;
    repeat match goal with
           | |- first_call (if ?b then _ else _) = None => destruct b
           | |- first_call (match ?x with _ => _ end) = None => destruct x
           end;
    reflexivity.
Qed.

(** X1.  Whatever the tool, the arguments and the answers of the gateway, an
    invocation makes at most one gateway call. *)
Theorem at_most_one_call
    (c : config) (t : tool) (raw : value) (gateway : gateway_call -> response) :
  length (fst (run gateway (call_tool c t raw))) <= 1.
Proof.
  unfold call_tool. destruct (validate c t raw) as [args|issues]; [|simpl; lia].
  pose proof (handler_calls_once c t args) as H.
  destruct (handler c t args) as [a | e | c0 k]; simpl; try lia.
  specialize (H (gateway c0)).
  destruct (k (gateway c0)); simpl in *; try lia. discriminate.
Qed.



(** ** Required parameters *)

Lemma required_rejects_undefined (s : schema) :
  accepts_undefined s = false ->
  exists errs, parse s VUndefined = Invalid errs.
Proof.
  induction s; simpl; intros H; try discriminate; eauto.
  apply orb_false_iff in H. destruct H as [H1 H2].
  destruct (IHs1 H1) as [e1 ->]. destruct (IHs2 H2) as [e2 ->]. eauto.
Qed.

Lemma invalid_field_invalid_object (input : object) (rs : list (string * parsed))
    (k : string) (errs : list issue_code) :
  In (k, Invalid errs) rs -> all_valid_fields input rs = None.
Proof.
  induction rs as [|[k0 r0] rest IH]; simpl; [contradiction|].
  intros [Heq | Hin].
  - injection Heq as -> ->. reflexivity.
  - destruct r0; [|reflexivity]. rewrite (IH Hin). reflexivity.
Qed.

(** X3.  For every tool: an invocation that leaves out a parameter whose
    schema is not optional is refused by validation, and the refusal is the
    outcome of the invocation, with no gateway call. *)
Theorem missing_required_parameter
    (c : config) (t : tool) (k : string) (s : schema) (raw : value)
    (gateway : gateway_call -> response) :
  In (k, s) (shape c t) ->
  accepts_undefined s = false ->
  get raw k = VUndefined ->
  exists issues,
    validate c t raw = Invalid issues
    /\ run gateway (call_tool c t raw) = ([], inl (InvalidParams issues)).
Proof.
  intros Hin Hreq Hraw.
  assert (Hv : exists issues, validate c t raw = Invalid issues).
  { unfold validate. cbn [parse]. destruct raw; eauto.
    unfold merge_object.
    destruct (required_rejects_undefined s Hreq) as [errs Herrs].
    rewrite (invalid_field_invalid_object fields _ k errs); [eauto|].
    rewrite <- Herrs, <- Hraw.
    exact (in_map (fun ks => (fst ks, parse (snd ks) (get (VObj fields) (fst ks))))
                  _ _ Hin). }
  destruct Hv as [issues Hv]. exists issues. split; [exact Hv|].
  unfold call_tool. rewrite Hv. reflexivity.
Qed.

(** ** Arguments as the handlers receive them *)

Lemma Forall2_eq_right (R : value -> value -> Prop) (xs ys : list value) :
  Forall2 R xs ys -> (forall x y, In x xs -> R x y -> y = x) -> ys = xs.
Proof.
  induction 1 as [|x y xs ys Hxy _ IH]; intros Heq.
  - reflexivity.
  - rewrite (Heq x y (or_introl eq_refl) Hxy), IH; [reflexivity|].
    intros x' y' Hin. apply Heq. right. exact Hin.
Qed.

Lemma parse_preserving (s : schema) :
  preserving s = true ->
  forall v v', parse s v = Valid v' -> v' = v.
Proof.
  induction s; cbn [preserving]; intros Hp v v' H; try discriminate.
  - exact (proj1 (parse_string_inv _ _ _ H)).
  - simpl in H. destruct v; try discriminate. congruence.
  - simpl in H. destruct v; try discriminate.
    destruct (existsb _ _); [congruence | discriminate].
  - destruct (parse_array_inv _ _ _ _ H) as (items & out & -> & -> & Hall & _).
    f_equal. apply (Forall2_eq_right _ _ _ Hall).
    intros x y _ Hxy. exact (IHs Hp _ _ Hxy).
  - apply andb_true_iff in Hp. destruct Hp as [Hp1 Hp2].
    cbn [parse] in H. destruct (parse s1 v) as [x|] eqn:E1.
    + injection H as <-. exact (IHs1 Hp1 _ _ E1).
    + destruct (parse s2 v) as [x|] eqn:E2; [|discriminate].
      injection H as <-. exact (IHs2 Hp2 _ _ E2).
  - assert (Hcases : v = VUndefined \/ v <> VUndefined)
      by (destruct v; auto; right; discriminate).
    destruct Hcases as [-> | Hv].
    + exact (parse_optional_omitted _ _ H).
    + rewrite parse_optional_supplied in H by exact Hv. exact (IHs Hp _ _ H).
Qed.

Lemma shape_nodup (c : config) (t : tool) : NoDup (map fst (shape c t)).
Proof.
  destruct t; try exact (send_email_shape_nodup c);
    simpl; repeat (constructor; [simpl; intuition discriminate|]); constructor.
Qed.

Lemma validated_field (c : config) (t : tool) (raw args : value)
    (k : string) (s : schema) :
  validate c t raw = Valid args ->
  In (k, s) (shape c t) ->
  parse s (get raw k) = Valid (get args k).
Proof.
  intros H Hin. exact (parse_object_field _ _ _ _ _ H (shape_nodup c t) Hin).
Qed.

(** A parameter without an object inside reaches the handler as it was
    supplied. *)
Lemma validated_unchanged (c : config) (t : tool) (raw args : value)
    (k : string) (s : schema) :
  validate c t raw = Valid args ->
  In (k, s) (shape c t) ->
  preserving s = true ->
  get args k = get raw k.
Proof.
  intros H Hin Hp. exact (parse_preserving s Hp _ _ (validated_field _ _ _ _ _ _ H Hin)).
Qed.

Lemma parse_optional_boolean_inv (v v' : value) :
  parse (ZOptional ZBoolean) v = Valid v' ->
  v = VUndefined \/ exists b, v = VBool b.
Proof. destruct v; simpl; try discriminate; eauto. Qed.

Lemma parse_optional_enum_inv (options : list string) (v v' : value) :
  parse (ZOptional (ZEnum options)) v = Valid v' ->
  v = VUndefined \/ exists s, v = VStr s /\ In s options.
Proof.
  destruct v; simpl; try discriminate; auto.
  destruct (existsb (String.eqb s) options) eqn:E; [|discriminate].
  intros _. right. exists s. split; [reflexivity|].
  apply existsb_exists in E. destruct E as (o & Ho & Heq).
  apply String.eqb_eq in Heq. subst o. exact Ho.
Qed.

(** Rewrites the arguments of tool [t] that the handler reads unchanged. *)
Ltac unchanged H t keys :=
  let rec go ks :=
    match ks with
    | nil => idtac
    | cons ?k ?rest =>
        let E := fresh "E" in
        pose proof (validated_unchanged _ t _ _ k _ H ltac:(simpl; tauto) eq_refl) as E;
        rewrite ?E; go rest
    end in
  go keys.

(** ** create-broadcast: content *)

(** X4.  A validated create-broadcast invocation whose [text] and [html] are
    both absent or empty is refused with "Either text or html content must be
    provided" and makes no gateway call; with one of them non-empty, the
    gateway is called with the eight parameters as supplied, absent ones as
    [undefined].  The configured default sender plays no part: the sender is
    the required [from] of the invocation. *)
Theorem create_broadcast_content (c : config) (raw args : value) :
  validate c create_broadcast raw = Valid args ->
  (truthy (get raw "text") = false -> truthy (get raw "html") = false ->
   call_tool c create_broadcast raw
   = Throw (Error "Either text or html content must be provided"))
  /\ (truthy (get raw "text") = true \/ truthy (get raw "html") = true ->
      first_call (call_tool c create_broadcast raw)
      = Some (BroadcastsCreate
                (VObj [ ("name", get raw "name");
                        ("audienceId", get raw "audienceId");
                        ("from", get raw "from");
                        ("subject", get raw "subject");
                        ("replyTo", get raw "replyTo");
                        ("previewText", get raw "previewText");
                        ("text", get raw "text");
                        ("html", get raw "html") ])))
  /\ exists s, get raw "from" = VStr s /\ is_email s = true.
Proof.
  intros H. unfold call_tool. rewrite H. cbn [handler].
  unfold handle_create_broadcast.
  unchanged H create_broadcast
    ["name"; "audienceId"; "from"; "subject"; "replyTo"; "previewText"; "text"; "html"].
  split; [|split].
  - intros -> ->. reflexivity.
  - intros [-> | ->]; rewrite ?orb_true_r; cbn [negb andb];
      destruct (truthy (get raw "text")); reflexivity.
  - pose proof (validated_field _ _ _ _ "from" _ H ltac:(simpl; tauto)) as Hf.
    destruct (parse_email_string_inv _ _ Hf) as (_ & s & Hs & Hmail). eauto.
Qed.

(** ** delete-contact: which identifier *)

(** X5.  A validated delete-contact invocation reaches the gateway exactly
    when [contactId] is a non-empty string or [email] is supplied; the request
    then carries [audienceId], [contactId] under the name [id], and [email],
    as supplied.  An empty [contactId] alone counts as no identifier. *)
Theorem delete_contact_identifier (c : config) (raw args : value) :
  validate c delete_contact raw = Valid args ->
  (truthy (get raw "contactId") = false -> get raw "email" = VUndefined ->
   call_tool c delete_contact raw
   = Throw (Error "Either contactId or email must be provided"))
  /\ (truthy (get raw "contactId") = true \/ get raw "email" <> VUndefined ->
      first_call (call_tool c delete_contact raw)
      = Some (ContactsRemove
                (VObj [ ("audienceId", get raw "audienceId");
                        ("id", get raw "contactId");
                        ("email", get raw "email") ]))).
Proof.
  intros H. unfold call_tool. rewrite H. cbn [handler].
  unfold handle_delete_contact.
  unchanged H delete_contact ["audienceId"; "contactId"; "email"].
  split.
  - intros -> ->. reflexivity.
  - intros Hsome.
    assert (Ht : truthy (get raw "contactId") = true \/ truthy (get raw "email") = true).
    { destruct Hsome as [Hid | Hmail]; [auto|]. right.
      pose proof (validated_field _ _ _ _ "email" _ H ltac:(simpl; tauto)) as Hp.
      destruct (parse_optional_string_inv _ _ _ Hp) as [_ [Hu | (s & Hs & Hc)]];
        [contradiction|].
      rewrite Hs. apply email_truthy. cbn [flat_map check_issue] in Hc.
      destruct (is_email s); [reflexivity | discriminate]. }
    destruct Ht as [-> | ->]; rewrite ?andb_false_r; reflexivity.
Qed.

(** ** update-contact and update-domain: what is sent *)

(** X6.  A validated update-contact invocation always reaches the gateway.
    The request names the contact by [audienceId] and [id]; [firstName] and
    [lastName] travel under the names [first_name] and [last_name]; each of
    the three optional values is a property of the request exactly when it
    was supplied, the empty string and [false] included. *)
Theorem update_contact_request (c : config) (raw args : value) :
  validate c update_contact raw = Valid args ->
  exists req,
    first_call (call_tool c update_contact raw) = Some (ContactsUpdate (VObj req))
    /\ lookup "audienceId" req = Some (get raw "audienceId")
    /\ lookup "id" req = Some (get raw "contactId")
    /\ lookup "first_name" req
       = (if is_undefined (get raw "firstName") then None
          else Some (get raw "firstName"))
    /\ lookup "last_name" req
       = (if is_undefined (get raw "lastName") then None
          else Some (get raw "lastName"))
    /\ lookup "unsubscribed" req
       = (if is_undefined (get raw "unsubscribed") then None
          else Some (get raw "unsubscribed"))
    /\ lookup "firstName" req = None
    /\ lookup "lastName" req = None
    /\ lookup "contactId" req = None.
Proof.
  intros H. unfold call_tool. rewrite H. cbn [handler].
  unfold handle_update_contact. cbv zeta.
  unchanged H update_contact
    ["audienceId"; "contactId"; "firstName"; "lastName"; "unsubscribed"].
  eexists. split; [reflexivity|].
  cbn [app lookup String.eqb Ascii.eqb Bool.eqb].
  rewrite !lookup_assign_if.
  cbn [lookup String.eqb Ascii.eqb Bool.eqb].
  rewrite ?andb_false_r, ?andb_true_r.
  repeat split; try reflexivity;
    match goal with
    | |- context [is_undefined ?x] => destruct (is_undefined x); reflexivity
    end.
Qed.

(** X7.  A validated update-domain invocation always reaches the gateway
    with the domain under the name [id]; [openTracking], [clickTracking] and
    [tls] are properties of the request exactly when they were supplied, so a
    tracking flag set to [false] is sent and not dropped. *)
Theorem update_domain_request (c : config) (raw args : value) :
  validate c update_domain raw = Valid args ->
  exists req,
    first_call (call_tool c update_domain raw) = Some (DomainsUpdate (VObj req))
    /\ lookup "id" req = Some (get raw "domainId")
    /\ (forall k, In k ["openTracking"; "clickTracking"; "tls"] ->
          lookup k req
          = if is_undefined (get raw k) then None else Some (get raw k))
    /\ (forall k, get raw k = VBool false ->
          In k ["openTracking"; "clickTracking"] ->
          lookup k req = Some (VBool false)).
Proof.
  intros H. unfold call_tool. rewrite H. cbn [handler].
  unfold handle_update_domain. cbv zeta.
  unchanged H update_domain ["domainId"; "openTracking"; "clickTracking"; "tls"].
  eexists. split; [reflexivity|].
  assert (Hk : forall k, In k ["openTracking"; "clickTracking"; "tls"] ->
            lookup k
              (assign_if (negb (is_undefined (get raw "tls"))) "tls" (get raw "tls")
                 (assign_if (negb (is_undefined (get raw "clickTracking")))
                    "clickTracking" (get raw "clickTracking")
                    (assign_if (negb (is_undefined (get raw "openTracking")))
                       "openTracking" (get raw "openTracking")
                       [("id", get raw "domainId")])))
            = if is_undefined (get raw k) then None else Some (get raw k)).
  { intros k Hin. simpl in Hin. rewrite !lookup_assign_if.
    destruct Hin as [<- | [<- | [<- | []]]];
      cbn [lookup String.eqb Ascii.eqb Bool.eqb];
      rewrite ?andb_false_r, ?andb_true_r;
      match goal with
      | |- context [is_undefined ?x] => destruct (is_undefined x); reflexivity
      end. }
  split; [|split].
  - rewrite !lookup_assign_if. cbn [lookup String.eqb Ascii.eqb Bool.eqb].
    rewrite ?andb_false_r. reflexivity.
  - exact Hk.
  - intros k Hfalse Hin. rewrite Hk, Hfalse; [reflexivity|].
    simpl in Hin. simpl. tauto.
Qed.

(** ** create-api-key: the default permission *)

(** X8.  A validated create-api-key invocation always reaches the gateway;
    the permission of the request is the supplied one, and [sending_access]
    when none was supplied; [domainId] travels under the name [domain_id]. *)
Theorem create_api_key_request (c : config) (raw args : value) :
  validate c create_api_key raw = Valid args ->
  first_call (call_tool c create_api_key raw)
  = Some (ApiKeysCreate
            (VObj [ ("name", get raw "name");
                    ("permission",
                      if is_undefined (get raw "permission")
                      then VStr "sending_access" else get raw "permission");
                    ("domain_id", get raw "domainId") ]))
  /\ (get raw "permission" = VUndefined
      \/ get raw "permission" = VStr "full_access"
      \/ get raw "permission" = VStr "sending_access").
Proof.
  intros H. unfold call_tool. rewrite H. cbn [handler].
  unfold handle_create_api_key.
  unchanged H create_api_key ["name"; "permission"; "domainId"].
  pose proof (validated_field _ _ _ _ "permission" _ H ltac:(simpl; tauto)) as Hp.
  destruct (parse_optional_enum_inv _ _ _ Hp) as [-> | (s & -> & Hin)].
  - split; [reflexivity | auto].
  - simpl in Hin. destruct Hin as [<- | [<- | []]]; split; auto; reflexivity.
Qed.

(** ** Values that validation refuses *)

Lemma invalid_parameter (c : config) (t : tool) (k : string) (s : schema)
    (raw : value) (errs : list issue_code) (gateway : gateway_call -> response) :
  In (k, s) (shape c t) ->
  parse s (get raw k) = Invalid errs ->
  exists issues,
    validate c t raw = Invalid issues
    /\ run gateway (call_tool c t raw) = ([], inl (InvalidParams issues)).
Proof.
  intros Hin Herrs.
  assert (Hv : exists issues, validate c t raw = Invalid issues).
  { unfold validate. cbn [parse]. destruct raw; eauto.
    unfold merge_object.
    rewrite (invalid_field_invalid_object fields _ k errs); [eauto|].
    rewrite <- Herrs.
    exact (in_map (fun ks => (fst ks, parse (snd ks) (get (VObj fields) (fst ks))))
                  _ _ Hin). }
  destruct Hv as [issues Hv]. exists issues. split; [exact Hv|].
  unfold call_tool. rewrite Hv. reflexivity.
Qed.

(** X9.  For every tool with an enumerated parameter (the region of
    create-domain, the TLS policy of update-domain, the permission of
    create-api-key): a string outside the enumeration is refused by
    validation and no gateway call is made. *)
Theorem enumerated_parameter_checked
    (c : config) (t : tool) (k : string) (options : list string) (raw : value)
    (s : string) (gateway : gateway_call -> response) :
  In (k, ZOptional (ZEnum options)) (shape c t) ->
  get raw k = VStr s ->
  ~ In s options ->
  exists issues,
    validate c t raw = Invalid issues
    /\ run gateway (call_tool c t raw) = ([], inl (InvalidParams issues)).
Proof.
  intros Hin Hraw Hout.
  apply (invalid_parameter c t k _ raw [invalid_enum_value] gateway Hin).
  rewrite Hraw. cbn [parse].
  destruct (existsb (String.eqb s) options) eqn:E; [|reflexivity].
  apply existsb_exists in E. destruct E as (o & Ho & Heq).
  apply String.eqb_eq in Heq. subst o. contradiction.
Qed.

(** ** Recipients *)

Lemma parse_email_item (x : value) :
  (is_email_string x = true -> parse (ZString [Email]) x = Valid x)
  /\ (is_email_string x = false -> exists errs, parse (ZString [Email]) x = Invalid errs).
Proof.
  destruct x; simpl; split; intros H; try discriminate; eauto;
    rewrite H; simpl; eauto.
Qed.

Lemma all_valid_email_items (items : list value) :
  all_valid (map (parse (ZString [Email])) items)
  = if forallb is_email_string items then Some items else None.
Proof.
  induction items as [|x rest IH]; [reflexivity|].
  cbn [map all_valid forallb].
  destruct (is_email_string x) eqn:E.
  - rewrite (proj1 (parse_email_item x) E), IH. cbn [andb].
    destruct (forallb is_email_string rest); reflexivity.
  - destruct (proj2 (parse_email_item x) E) as [errs ->]. reflexivity.
Qed.

(** X10.  The recipient schema used for [to], [cc], [bcc] and [replyTo]
    accepts exactly one email string or a list of email strings, and returns
    the value unchanged; a list with a malformed address at any position is
    refused, and the empty list is accepted. *)
Theorem recipients_validation (v : value) :
  (forall v', parse addresses v = Valid v' -> v' = v)
  /\ (parse addresses v = Valid v <-> addresses_ok v = true)
  /\ (addresses_ok v = false -> exists errs, parse addresses v = Invalid errs)
  /\ parse addresses (VArr []) = Valid (VArr []).
Proof.
  assert (Hshape : parse addresses v
                   = match parse (ZString [Email]) v with
                     | Valid x => Valid x
                     | Invalid _ =>
                         match parse (ZArray (ZString [Email]) None) v with
                         | Valid x => Valid x
                         | Invalid _ => Invalid [invalid_union]
                         end
                     end) by reflexivity.
  assert (Hdec : (addresses_ok v = true -> parse addresses v = Valid v)
                 /\ (addresses_ok v = false ->
                     exists errs, parse addresses v = Invalid errs)).
  { rewrite Hshape. destruct v; cbn [addresses_ok]; split; intros H;
      try discriminate; try (simpl; eauto; fail).
    - rewrite (proj1 (parse_email_item (VStr s)) H). reflexivity.
    - destruct (proj2 (parse_email_item (VStr s)) H) as [errs ->]. simpl. eauto.
    - cbn [parse]. unfold merge_array. rewrite all_valid_email_items, H. reflexivity.
    - cbn [parse]. unfold merge_array. rewrite all_valid_email_items, H. eauto. }
  split; [|split; [|split]].
  - intros v' H. exact (proj1 (parse_addresses_inv _ _ H)).
  - split.
    + intros H. destruct (addresses_ok v) eqn:E; [reflexivity|].
      destruct (proj2 Hdec eq_refl) as [errs Herrs]. congruence.
    + exact (proj1 Hdec).
  - exact (proj2 Hdec).
  - reflexivity.
Qed.

(** ** send-email: values of the request *)

(** X11.  In the request of a validated send-email invocation, [to],
    [subject] and [text] are the supplied values, unchanged; [html],
    [scheduledAt], [cc] and [bcc] are the supplied values when these are
    truthy, and are no property of the request otherwise. *)
Theorem send_email_passes_values (c : config) (raw args : value) :
  validate c send_email raw = Valid args ->
  (forall k, In k ["to"; "subject"; "text"] ->
     lookup k (emailRequest c args) = Some (get raw k))
  /\ (forall k, In k ["html"; "scheduledAt"; "cc"; "bcc"] ->
        lookup k (emailRequest c args)
        = if truthy (get raw k) then Some (get raw k) else None).
Proof.
  intros H.
  assert (Hsame : forall k s,
             In (k, s) [ ("to", addresses); ("subject", ZString []);
                         ("text", ZString []); ("html", ZOptional (ZString []));
                         ("cc", ZOptional addresses); ("bcc", ZOptional addresses);
                         ("scheduledAt", ZOptional (ZString [])) ] ->
             get args k = get raw k).
  { intros k s Hin.
    apply (validated_unchanged c send_email raw args k s H).
    - apply send_email_fixed. simpl in Hin. simpl. intuition.
    - simpl in Hin.
      repeat (destruct Hin as [Heq | Hin]; [injection Heq as <- <-; reflexivity|]).
      contradiction. }
  split.
  - intros k Hin. simpl in Hin.
    destruct Hin as [<- | [<- | [<- | []]]];
      unfold emailRequest; cbv zeta; rewrite !lookup_assign_if;
      cbn [lookup String.eqb Ascii.eqb Bool.eqb andb];
      rewrite ?andb_false_r; f_equal;
      [ apply (Hsame "to" addresses) | apply (Hsame "subject" (ZString []))
      | apply (Hsame "text" (ZString [])) ]; simpl; tauto.
  - intros k Hin. rewrite emailRequest_optional by (simpl in Hin; simpl; tauto).
    simpl in Hin.
    destruct Hin as [<- | [<- | [<- | [<- | []]]]];
      [ rewrite (Hsame "html" (ZOptional (ZString [])))
      | rewrite (Hsame "scheduledAt" (ZOptional (ZString [])))
      | rewrite (Hsame "cc" (ZOptional addresses))
      | rewrite (Hsame "bcc" (ZOptional addresses)) ];
      try reflexivity; simpl; tauto.
Qed.

(** ** send-batch-emails: what is forwarded and what is rendered *)

Lemma batch_entry_fields (entry validated : value) :
  parse batch_entry entry = Valid validated ->
  (exists out, validated = VObj out)
  /\ (forall k,
        In k ["to"; "subject"; "text"; "html"; "cc"; "bcc"; "replyTo"; "scheduledAt"] ->
        get validated k = get entry k)
  /\ (forall k,
        ~ In k ["to"; "subject"; "text"; "from"; "html"; "cc"; "bcc"; "replyTo";
                "scheduledAt"; "tags"; "attachments"; "headers"] ->
        get validated k = VUndefined).
Proof.
  unfold batch_entry. intros H. split; [|split].
  - destruct (parse_object_inv _ _ _ H) as (fs & out & _ & -> & _). eauto.
  - intros k Hin.
    assert (Hs : exists s, preserving s = true /\
                           parse s (get entry k) = Valid (get validated k)).
    { simpl in Hin.
      repeat (destruct Hin as [<- | Hin];
              [eexists; split;
               [| apply (parse_object_field _ _ _ _ _ H batch_entry_nodup);
                  simpl; tauto]; reflexivity|]).
      contradiction. }
    destruct Hs as (s & Hp & Hs). exact (parse_preserving s Hp _ _ Hs).
  - intros k Hk. exact (parse_object_strip _ _ _ k H Hk).
Qed.

(** X12.  A validated send-batch-emails invocation sends one request per
    entry, in order.  Apart from [from], a request takes [to], [subject],
    [text], [html], [cc], [bcc], [replyTo] and [scheduledAt] from its entry
    unchanged: an empty [html] or [scheduledAt] is sent as it is, and the
    reply-to addresses of the configuration are not applied.  Properties of
    an entry that the schema does not name are not sent. *)
Theorem batch_entries_copied (c : config) (raw args : value) :
  validate c send_batch_emails raw = Valid args ->
  exists entries reqs,
    get raw "emails" = VArr entries
    /\ first_call (call_tool c send_batch_emails raw) = Some (BatchSend (VArr reqs))
    /\ length reqs = length entries
    /\ Forall2
         (fun entry req =>
            (forall k,
                In k ["to"; "subject"; "text"; "html"; "cc"; "bcc"; "replyTo";
                      "scheduledAt"] ->
                get req k = get entry k)
            /\ (forall k,
                  ~ In k ["to"; "subject"; "text"; "from"; "html"; "cc"; "bcc";
                          "replyTo"; "scheduledAt"; "tags"; "attachments"; "headers"] ->
                  get req k = VUndefined))
         entries reqs.
Proof.
  intros H.
  pose proof (validated_field _ _ _ _ "emails" _ H ltac:(simpl; tauto)) as Hp.
  destruct (parse_array_inv _ _ _ _ Hp) as (entries & out & Hraw & Hargs & Hall & _).
  exists entries, (batchEmails c out).
  assert (Hcopied :
            Forall2
              (fun entry req =>
                 (forall k,
                     In k ["to"; "subject"; "text"; "html"; "cc"; "bcc"; "replyTo";
                           "scheduledAt"] ->
                     get req k = get entry k)
                 /\ (forall k,
                       ~ In k ["to"; "subject"; "text"; "from"; "html"; "cc"; "bcc";
                               "replyTo"; "scheduledAt"; "tags"; "attachments";
                               "headers"] ->
                       get req k = VUndefined))
              entries (batchEmails c out)).
  { unfold batchEmails. refine (Forall2_map_right _ _ _ _ _ _ Hall).
    intros entry validated Hv. cbv beta in Hv |- *.
    destruct (batch_entry_fields _ _ Hv) as ((fs & ->) & Hkeep & Hstrip).
    cbn [spread].
    assert (Hget : forall k, k <> "from" ->
              get (VObj (assign "from"
                           (js_or (get (VObj fs) "from") (sender_value c)) fs)) k
              = get (VObj fs) k).
    { intros k Hk. unfold get. rewrite lookup_assign.
      destruct (String.eqb_spec k "from"); [contradiction | reflexivity]. }
    split.
    - intros k Hin. rewrite Hget; [exact (Hkeep k Hin)|].
      intros ->. simpl in Hin. intuition discriminate.
    - intros k Hk. rewrite Hget; [exact (Hstrip k Hk)|].
      intros ->. apply Hk. simpl. tauto. }
  split; [exact Hraw|]. split; [|split; [|exact Hcopied]].
  - unfold call_tool. rewrite H. cbn [handler]. unfold handle_send_batch_emails.
    rewrite Hargs. reflexivity.
  - symmetry. exact (Forall2_length Hcopied).
Qed.

Lemma ids_of_present (created : list value) :
  forallb (fun e => negb (is_nullish e)) created = true ->
  ids_of created = Some (map (fun e => get e "id") created).
Proof.
  induction created as [|e rest IH]; [reflexivity|].
  cbn [forallb]. intros H. apply andb_true_iff in H. destruct H as [He Hrest].
  cbn [ids_of map]. rewrite (IH Hrest).
  destruct e; simpl in He; try discriminate; reflexivity.
Qed.

(** X13.  After a validated batch was sent and the gateway reported no error:
    when the payload holds a list of created emails, the result lists their
    identifiers in the order of that list, separated by comma and space; when
    the payload is present but holds no such list, the invocation fails with
    a TypeError although the batch was sent. *)
Theorem batch_result_rendering
    (c : config) (raw args : value) (gateway : gateway_call -> response)
    (call : gateway_call) :
  validate c send_batch_emails raw = Valid args ->
  first_call (call_tool c send_batch_emails raw) = Some call ->
  truthy (error (gateway call)) = false ->
  (forall created,
      get (data (gateway call)) "data" = VArr created ->
      forallb (fun e => negb (is_nullish e)) created = true ->
      run gateway (call_tool c send_batch_emails raw)
      = ([call],
         inr (TextResult
                ("Batch emails sent successfully! IDs: "
                 ++ js_join ", " (map (fun e => get e "id") created)))))
  /\ (is_nullish (data (gateway call)) = false ->
      (forall created, get (data (gateway call)) "data" <> VArr created) ->
      run gateway (call_tool c send_batch_emails raw) = ([call], inl TypeError)).
Proof.
  intros H.
  pose proof (validated_field _ _ _ _ "emails" _ H ltac:(simpl; tauto)) as Hp.
  destruct (parse_array_inv _ _ _ _ Hp) as (entries & out & _ & Hargs & _ & _).
  unfold call_tool. rewrite H. cbn [handler]. unfold handle_send_batch_emails.
  rewrite Hargs. cbn [first_call run]. intros Hcall Herr.
  injection Hcall as <-. rewrite Herr. split.
  - intros created Hget Hall.
    destruct (data (gateway (BatchSend (VArr (batchEmails c out))))) eqn:Ed;
      try (cbn in Hget; discriminate).
    cbv beta iota. rewrite Hget. cbv beta iota.
    rewrite (ids_of_present _ Hall). reflexivity.
  - intros Hnn Hno.
    destruct (data (gateway (BatchSend (VArr (batchEmails c out))))) eqn:Ed;
      try (cbn in Hnn; discriminate); try reflexivity.
    cbv beta iota.
    destruct (get (VObj fields) "data") eqn:Eg; try reflexivity.
    exfalso. exact (Hno _ eq_refl).
Qed.

(** ** Startup: reply-to addresses *)

Lemma split_on_nonempty (sep : ascii) (s : string) : split_on sep s <> [].
Proof.
  destruct s as [|a rest]; simpl; [discriminate|].
  destruct (Ascii.eqb a sep); [discriminate|].
  destruct (split_on sep rest); discriminate.
Qed.

Lemma split_on_join (sep : ascii) (s : string) :
  sep_by (String sep "") (split_on sep s) = s.
Proof.
  induction s as [|a rest IH]; [reflexivity|].
  pose proof (split_on_nonempty sep rest) as Hne.
  cbn [split_on]. destruct (Ascii.eqb_spec a sep) as [-> | Hneq].
  - destruct (split_on sep rest) as [|piece pieces]; [contradiction|].
    cbn [sep_by] in IH |- *. simpl. f_equal. exact IH.
  - destruct (split_on sep rest) as [|piece pieces]; [contradiction|].
    destruct pieces as [|next more].
    + simpl in IH |- *. f_equal. exact IH.
    + cbn [sep_by] in IH |- *. simpl. f_equal. exact IH.
Qed.

Lemma split_on_pieces (sep : ascii) (s : string) :
  Forall (fun piece => ~ In sep (list_ascii_of_string piece)) (split_on sep s).
Proof.
  induction s as [|a rest IH]; simpl.
  - constructor; [simpl; tauto | constructor].
  - destruct (Ascii.eqb_spec a sep) as [-> | Hneq].
    + constructor; [simpl; tauto | exact IH].
    + destruct (split_on sep rest) as [|piece pieces].
      * constructor; [|constructor]. simpl. intuition.
      * inversion IH as [|? ? Hpiece Hrest]; subst.
        constructor; [|exact Hrest]. simpl. intuition.
Qed.

Lemma strings_of_strings (pieces : list string) :
  strings_of (map VStr pieces) = Some pieces.
Proof.
  induction pieces as [|p rest IH]; simpl; [reflexivity|]. rewrite IH. reflexivity.
Qed.

(** X14.  The reply-to addresses of the process.  A [--reply-to] flag given
    once is one address, taken whole even when it contains commas, and a flag
    given several times is the list of its values; in both cases the
    environment is not read.  Without the flag, a non-empty
    [REPLY_TO_EMAIL_ADDRESSES] is cut at its commas: the pieces are at least
    one, none contains a comma, and joined by commas they give the variable
    back.  Without the flag and with the variable unset or empty there is no
    reply-to address. *)
Theorem startup_reply_to (argv : value) (env : environment) :
  (forall s, get argv "reply-to" = VStr s ->
     resolve_replierEmailAddresses argv env = [VStr s])
  /\ (forall items, get argv "reply-to" = VArr items ->
        resolve_replierEmailAddresses argv env = items)
  /\ (get argv "reply-to" = VUndefined ->
      forall s, getenv "REPLY_TO_EMAIL_ADDRESSES" env = VStr s -> s <> "" ->
      exists pieces,
        resolve_replierEmailAddresses argv env = map VStr pieces
        /\ pieces <> []
        /\ sep_by (String comma "") pieces = s
        /\ Forall (fun piece => ~ In comma (list_ascii_of_string piece)) pieces)
  /\ (get argv "reply-to" = VUndefined ->
      truthy (getenv "REPLY_TO_EMAIL_ADDRESSES" env) = false ->
      resolve_replierEmailAddresses argv env = []).
Proof.
  unfold resolve_replierEmailAddresses. split; [|split; [|split]].
  - intros s ->. reflexivity.
  - intros items ->. reflexivity.
  - intros -> s -> Hs. exists (split_on comma s).
    assert (Ht : truthy (VStr s) = true).
    { simpl. destruct (String.eqb_spec s ""); [contradiction | reflexivity]. }
    rewrite Ht.
    repeat split; auto using split_on_nonempty, split_on_join, split_on_pieces.
  - intros -> Hfalse.
    destruct (getenv "REPLY_TO_EMAIL_ADDRESSES" env); try reflexivity.
    rewrite Hfalse. reflexivity.
Qed.

(** X15.  From startup to the wire: when the process serves with no
    [--reply-to] flag and a non-empty [REPLY_TO_EMAIL_ADDRESSES], the
    configured reply-to addresses are the comma-separated pieces of the
    variable, [replyTo] is not a parameter of send-email, and the request of
    every validated send-email invocation carries exactly those pieces. *)
Theorem environment_reply_to_is_sent
    (argv : value) (env : environment) (key sender : value)
    (repliers : list value) (s : string) (c : config) :
  startup argv env = Serving key sender repliers ->
  get argv "reply-to" = VUndefined ->
  getenv "REPLY_TO_EMAIL_ADDRESSES" env = VStr s ->
  s <> "" ->
  config_of sender repliers = Some c ->
  replierEmailAddresses c = split_on comma s
  /\ ~ In "replyTo" (map fst (shape c send_email))
  /\ (forall raw args,
        validate c send_email raw = Valid args ->
        lookup "replyTo" (emailRequest c args)
        = Some (VArr (map VStr (split_on comma s)))).
Proof.
  intros Hstart Hflag Henv Hs Hc.
  assert (Hrep : repliers = map VStr (split_on comma s)).
  { unfold startup in Hstart.
    destruct (negb (truthy (resolve_apiKey argv env))); [discriminate|].
    injection Hstart as _ _ <-.
    unfold resolve_replierEmailAddresses. rewrite Hflag, Henv.
    assert (Ht : truthy (VStr s) = true).
    { simpl. destruct (String.eqb_spec s ""); [contradiction | reflexivity]. }
    rewrite Ht. reflexivity. }
  assert (Hlist : replierEmailAddresses c = split_on comma s).
  { unfold config_of in Hc. rewrite Hrep, strings_of_strings in Hc.
    destruct sender; try discriminate; injection Hc as <-; reflexivity. }
  assert (Hne : replierEmailAddresses c <> []).
  { rewrite Hlist. apply split_on_nonempty. }
  split; [exact Hlist|]. split; [exact (replyTo_not_in_shape c Hne)|].
  intros raw args H.
  destruct (replyTo_resolved c _ _ H) as [[_ Hres] | (He & _)]; [|contradiction].
  rewrite emailRequest_replyTo, Hres. unfold repliers_value. rewrite Hlist.
  pose proof (split_on_nonempty comma s) as Hsplit.
  destruct (split_on comma s); [contradiction | reflexivity].
Qed.

(** ** send-batch-emails without a configured sender *)

(** C8.  With no sender configured, a validated send-batch-emails invocation
    always reaches the gateway: the handler has no check of its own.  Every
    entry is forwarded: its request has, for every name but [from], the value
    of the validated entry, which for [to], [subject], [text], [html], [cc],
    [bcc], [replyTo] and [scheduledAt] is the value of the entry itself; its
    [from] is the one of the entry, and [undefined] when the entry has none.
    After the call, the only [Error] the handler throws is the one that
    reports an error of the gateway.  The entry schema accepts an absent
    [from]. *)
Theorem batch_without_sender_forwarded (c : config) (raw args : value) :
  senderEmailAddress c = None ->
  validate c send_batch_emails raw = Valid args ->
  parse (ZOptional (ZString [Email])) VUndefined = Valid VUndefined
  /\ exists entries reqs k,
      get raw "emails" = VArr entries
      /\ call_tool c send_batch_emails raw = Call (BatchSend (VArr reqs)) k
      /\ Forall2
           (fun entry req =>
              (exists validated,
                  parse batch_entry entry = Valid validated
                  /\ forall key, key <> "from" -> get req key = get validated key)
              /\ (forall key,
                    In key ["to"; "subject"; "text"; "html"; "cc"; "bcc"; "replyTo";
                            "scheduledAt"] ->
                    get req key = get entry key)
              /\ (get entry "from" = VUndefined -> get req "from" = VUndefined)
              /\ (forall s, get entry "from" = VStr s -> get req "from" = VStr s))
           entries reqs
      /\ (forall response m,
            k response = Throw (Error m) ->
            truthy (error response) = true
            /\ m = "Batch email failed to send: " ++ JSON_stringify (error response)).
Proof.
  intros Hnone H. split; [reflexivity|].
  pose proof (validated_field _ _ _ _ "emails" _ H ltac:(simpl; tauto)) as Hp.
  destruct (parse_array_inv _ _ _ _ Hp) as (entries & out & Hraw & Hargs & Hall & _).
  exists entries, (batchEmails c out). eexists.
  split; [exact Hraw|]. split; [|split].
  - unfold call_tool. rewrite H. cbn [handler]. unfold handle_send_batch_emails.
    rewrite Hargs. reflexivity.
  - unfold batchEmails. refine (Forall2_map_right _ _ _ _ _ _ Hall).
    intros entry validated Hv. cbv beta in Hv |- *.
    destruct (batch_entry_fields _ _ Hv) as ((fs & ->) & Hkeep & _).
    destruct (batch_entry_from _ _ Hv) as [Hfrom Hcases].
    cbn [spread].
    assert (Hget : forall key, key <> "from" ->
              get (VObj (assign "from"
                           (js_or (get (VObj fs) "from") (sender_value c)) fs)) key
              = get (VObj fs) key).
    { intros key Hkey. unfold get. rewrite lookup_assign.
      destruct (String.eqb_spec key "from"); [contradiction | reflexivity]. }
    assert (Hsent : get (VObj (assign "from"
                                 (js_or (get (VObj fs) "from") (sender_value c)) fs))
                        "from"
                    = js_or (get entry "from") (sender_value c)).
    { unfold get at 1. rewrite lookup_assign, String.eqb_refl, Hfrom. reflexivity. }
    split; [|split; [|split]].
    + exists (VObj fs). split; [exact Hv | exact Hget].
    + intros key Hin. rewrite Hget; [exact (Hkeep key Hin)|].
      intros ->. simpl in Hin. intuition discriminate.
    + intros Hu. rewrite Hsent, Hu. unfold js_or, sender_value. rewrite Hnone.
      reflexivity.
    + intros s Hs. rewrite Hsent. unfold js_or.
      destruct Hcases as [Hu | (s' & Hs' & Hmail)]; [congruence|].
      rewrite Hs'. rewrite (email_truthy s' Hmail). congruence.
  - intros response m. cbv beta.
    destruct (truthy (error response)).
    + intros Hk. injection Hk as <-. auto.
    + destruct (data response); try discriminate;
        destruct (get _ "data"); try discriminate;
        destruct (ids_of _); discriminate.
Qed.

(** ** send-email: the sender guard *)


(** For a sender that is a string or absent, the send-email tool of the
    general definitions is the one of the configuration. *)
Lemma send_email_at_agrees (c : config) (raw : value) :
  call_send_email_at (sender_value c) (map VStr (replierEmailAddresses c)) raw
  = call_tool c send_email raw.
Proof.
  unfold call_send_email_at, validate_send_email_at, call_tool, validate.
  cbn [shape handler]. unfold send_email_shape_at, send_email_shape.
  rewrite length_map. reflexivity.
Qed.


End Further.

(** ** Instances of the further properties *)


Lemma missing_required_parameter_witness :
  get (VObj [("subject", VStr "Hi")]) "to" = VUndefined
  /\ exists issues,
      validate no_defaults send_email (VObj [("subject", VStr "Hi")]) = Invalid issues
      /\ run accepting_gateway
             (call_tool no_defaults send_email (VObj [("subject", VStr "Hi")]))
         = ([], inl (InvalidParams issues)).
Proof.
  split; [reflexivity|].
  apply (missing_required_parameter no_defaults send_email "to" addresses
           (VObj [("subject", VStr "Hi")]) accepting_gateway).
  - simpl. tauto.
  - reflexivity.
  - reflexivity.
Defined.

Lemma create_broadcast_content_witness :
  validate no_defaults create_broadcast broadcast_without_content
  = Valid broadcast_without_content
  /\ call_tool no_defaults create_broadcast broadcast_without_content
     = Throw (Error "Either text or html content must be provided").
Proof.
  assert (Hvalid : validate no_defaults create_broadcast broadcast_without_content
                   = Valid broadcast_without_content) by reflexivity.
  split; [exact Hvalid|].
  exact (proj1 (create_broadcast_content no_defaults broadcast_without_content
                  broadcast_without_content Hvalid) eq_refl eq_refl).
Defined.

Lemma delete_contact_identifier_witness :
  validate no_defaults delete_contact delete_contact_by_email
  = Valid delete_contact_by_email
  /\ first_call (call_tool no_defaults delete_contact delete_contact_by_email)
     = Some (ContactsRemove
               (VObj [ ("audienceId", VStr "aud_1"); ("id", VUndefined);
                       ("email", VStr "a@x.com") ])).
Proof.
  assert (Hvalid : validate no_defaults delete_contact delete_contact_by_email
                   = Valid delete_contact_by_email) by reflexivity.
  split; [exact Hvalid|].
  apply (proj2 (delete_contact_identifier no_defaults delete_contact_by_email
                  delete_contact_by_email Hvalid)).
  right. discriminate.
Defined.

Lemma update_contact_request_witness :
  validate no_defaults update_contact contact_update = Valid contact_update
  /\ exists req,
      first_call (call_tool no_defaults update_contact contact_update)
      = Some (ContactsUpdate (VObj req))
      /\ lookup "first_name" req = Some (VStr "")
      /\ lookup "unsubscribed" req = Some (VBool false).
Proof.
  assert (Hvalid : validate no_defaults update_contact contact_update
                   = Valid contact_update) by reflexivity.
  split; [exact Hvalid|].
  destruct (update_contact_request no_defaults contact_update contact_update Hvalid)
    as (req & Hcall & _ & _ & Hfirst & _ & Hunsub & _).
  exists req. auto.
Defined.

Lemma update_domain_request_witness :
  validate no_defaults update_domain domain_update = Valid domain_update
  /\ exists req,
      first_call (call_tool no_defaults update_domain domain_update)
      = Some (DomainsUpdate (VObj req))
      /\ lookup "openTracking" req = Some (VBool false).
Proof.
  assert (Hvalid : validate no_defaults update_domain domain_update
                   = Valid domain_update) by reflexivity.
  split; [exact Hvalid|].
  destruct (update_domain_request no_defaults domain_update domain_update Hvalid)
    as (req & Hcall & _ & _ & Hfalse).
  exists req. split; [exact Hcall|].
  apply Hfalse; [reflexivity | simpl; tauto].
Defined.

Lemma create_api_key_request_witness :
  validate no_defaults create_api_key api_key_request = Valid api_key_request
  /\ first_call (call_tool no_defaults create_api_key api_key_request)
     = Some (ApiKeysCreate
               (VObj [ ("name", VStr "ci"); ("permission", VStr "sending_access");
                       ("domain_id", VUndefined) ])).
Proof.
  assert (Hvalid : validate no_defaults create_api_key api_key_request
                   = Valid api_key_request) by reflexivity.
  split; [exact Hvalid|].
  exact (proj1 (create_api_key_request no_defaults api_key_request api_key_request
                  Hvalid)).
Defined.

Lemma enumerated_parameter_checked_witness :
  get (VObj [("name", VStr "x.com"); ("region", VStr "us-west-2")]) "region"
  = VStr "us-west-2"
  /\ exists issues,
      validate no_defaults create_domain
        (VObj [("name", VStr "x.com"); ("region", VStr "us-west-2")])
      = Invalid issues
      /\ run accepting_gateway
             (call_tool no_defaults create_domain
                (VObj [("name", VStr "x.com"); ("region", VStr "us-west-2")]))
         = ([], inl (InvalidParams issues)).
Proof.
  split; [reflexivity|].
  apply (enumerated_parameter_checked no_defaults create_domain "region"
           ["us-east-1"; "eu-west-1"; "sa-east-1"]
           (VObj [("name", VStr "x.com"); ("region", VStr "us-west-2")])
           "us-west-2" accepting_gateway).
  - simpl. tauto.
  - reflexivity.
  - simpl. intuition discriminate.
Defined.

Lemma recipients_validation_witness :
  addresses_ok (VArr [VStr "a@x.com"; VStr "not an address"]) = false
  /\ exists errs,
      parse addresses (VArr [VStr "a@x.com"; VStr "not an address"]) = Invalid errs.
Proof.
  split; [reflexivity|].
  exact (proj1 (proj2 (proj2 (recipients_validation
                                (VArr [VStr "a@x.com"; VStr "not an address"]))))
           eq_refl).
Defined.

Lemma send_email_passes_values_witness :
  validate no_defaults send_email email_with_from = Valid email_with_from
  /\ lookup "to" (emailRequest no_defaults email_with_from) = Some (VStr "a@x.com").
Proof.
  assert (Hvalid : validate no_defaults send_email email_with_from
                   = Valid email_with_from) by reflexivity.
  split; [exact Hvalid|].
  apply (proj1 (send_email_passes_values no_defaults email_with_from email_with_from
                  Hvalid) "to").
  simpl. tauto.
Defined.

Lemma batch_entries_copied_witness :
  validate both_configured send_batch_emails (batch_of [batch_entry_with_html])
  = Valid (batch_of [batch_entry_with_html])
  /\ exists entries reqs,
      get (batch_of [batch_entry_with_html]) "emails" = VArr entries
      /\ first_call (call_tool both_configured send_batch_emails
                       (batch_of [batch_entry_with_html]))
         = Some (BatchSend (VArr reqs))
      /\ length reqs = length entries.
Proof.
  assert (Hvalid : validate both_configured send_batch_emails
                     (batch_of [batch_entry_with_html])
                   = Valid (batch_of [batch_entry_with_html])) by reflexivity.
  split; [exact Hvalid|].
  destruct (batch_entries_copied both_configured _ _ Hvalid)
    as (entries & reqs & Hraw & Hcall & Hlen & _).
  exists entries, reqs. auto.
Defined.

Lemma batch_result_rendering_witness :
  validate no_defaults send_batch_emails (batch_of [VObj plain_email; VObj plain_email])
  = Valid (batch_of [VObj plain_email; VObj plain_email])
  /\ snd (run batch_gateway
             (call_tool no_defaults send_batch_emails
                (batch_of [VObj plain_email; VObj plain_email])))
     = inr (TextResult "Batch emails sent successfully! IDs: em_1, em_2").
Proof.
  assert (Hvalid : validate no_defaults send_batch_emails
                     (batch_of [VObj plain_email; VObj plain_email])
                   = Valid (batch_of [VObj plain_email; VObj plain_email]))
    by reflexivity.
  split; [exact Hvalid|].
  pose proof (proj1 (batch_result_rendering no_defaults _ _ batch_gateway _
                       Hvalid eq_refl eq_refl)
                [VObj [("id", VStr "em_1")]; VObj [("id", VStr "em_2")]]
                eq_refl eq_refl) as H.
  rewrite H. reflexivity.
Defined.

Lemma startup_reply_to_witness :
  get argv_with_key "reply-to" = VUndefined
  /\ exists pieces,
      resolve_replierEmailAddresses argv_with_key env_with_repliers = map VStr pieces
      /\ pieces <> []
      /\ sep_by (String comma "") pieces = "r@x.com,q@x.com".
Proof.
  split; [reflexivity|].
  destruct (proj1 (proj2 (proj2 (startup_reply_to argv_with_key env_with_repliers)))
              eq_refl "r@x.com,q@x.com" eq_refl ltac:(discriminate))
    as (pieces & Hres & Hne & Hjoin & _).
  exists pieces. auto.
Defined.

Lemma environment_reply_to_is_sent_witness :
  startup argv_with_key env_with_repliers
  = Serving (VStr "re_123") VUndefined [VStr "r@x.com"; VStr "q@x.com"]
  /\ replierEmailAddresses (Config None ["r@x.com"; "q@x.com"])
     = split_on comma "r@x.com,q@x.com".
Proof.
  split; [reflexivity|].
  exact (proj1 (environment_reply_to_is_sent argv_with_key env_with_repliers
                  (VStr "re_123") VUndefined [VStr "r@x.com"; VStr "q@x.com"]
                  "r@x.com,q@x.com" (Config None ["r@x.com"; "q@x.com"])
                  eq_refl eq_refl eq_refl ltac:(discriminate) eq_refl)).
Defined.

Lemma batch_without_sender_forwarded_witness :
  senderEmailAddress no_defaults = None
  /\ validate no_defaults send_batch_emails (batch_of [VObj plain_email])
     = Valid (batch_of [VObj plain_email])
  /\ exists entries reqs k,
      get (batch_of [VObj plain_email]) "emails" = VArr entries
      /\ call_tool no_defaults send_batch_emails (batch_of [VObj plain_email])
         = Call (BatchSend (VArr reqs)) k
      /\ Forall2 (fun entry req => get req "to" = get entry "to") entries reqs.
Proof.
  assert (Hvalid : validate no_defaults send_batch_emails (batch_of [VObj plain_email])
                   = Valid (batch_of [VObj plain_email])) by reflexivity.
  split; [reflexivity|]. split; [exact Hvalid|].
  destruct (proj2 (batch_without_sender_forwarded no_defaults _ _ eq_refl Hvalid))
    as (entries & reqs & k & Hraw & Hcall & Hall & _).
  exists entries, reqs, k. split; [exact Hraw|]. split; [exact Hcall|].
  clear -Hall. induction Hall as [|entry req es rs Hhd _ IH]; constructor; auto.
  destruct Hhd as (_ & Hkeep & _). apply Hkeep. simpl. tauto.
Defined.


